(** * Pow: a small HTTP framework on top of uWebSockets.js

  A shallow embedding of the two variants of [src/index.ts] (the fuller one,
  with body parsing, [HTTPError] and chainable registration, and the minimal
  one) and of the properties their specification states about them.

  The transport engine (uWebSockets.js) is represented by the log of the
  calls the framework makes on it; the JavaScript built-ins the code calls
  ([JSON.parse], [JSON.stringify], [querystring.parse], [Buffer#toString],
  [Object#toString]) are operations of a [Platform] class, so every theorem
  holds whatever these built-ins compute; [RefPlatform] is one executable
  instance, used to evaluate the code on concrete inputs. *)

From Stdlib Require Import String Ascii List ZArith Bool Lia DecimalString DecimalPos.
Import ListNotations.
Local Open Scope string_scope.
Local Open Scope Z_scope.
Set Warnings "-register-all".

(** The double-quote character, as a one-character string. *)
Definition dquote : string := String "034"%char EmptyString.

(* ===================================================================== *)
(** ** JavaScript values *)
(* ===================================================================== *)

Module JS.

(** Numbers: [NaN] or an exact integer.  Non-integral and infinite doubles
    are outside the model; none of the code below computes with one. *)
Inductive Number := NaN | Int (z : Z).

(** The classes the source tests with [instanceof]. [HTTPError] extends
    [Error]. *)
Inductive Class := Plain | ErrorClass | HTTPErrorClass.

(** Values.  Objects carry their class and their own properties in
    insertion order.  Functions and symbols are left out. *)
Inductive Value :=
| Undefined
| Null
| Bool (b : bool)
| Num (n : Number)
| Str (s : string)
| BigInt (z : Z)
| Arr (elems : list Value)
| Obj (cls : Class) (props : list (string * Value)).

(** How an evaluation ends: with a value or with a thrown exception. *)
Inductive Completion (A : Type) :=
| Normal (a : A)
| Throw (e : Value).
Arguments Normal {A} a.
Arguments Throw {A} e.

Definition Number_eqb (a b : Number) : bool :=
  match a, b with
  | Int x, Int y => Z.eqb x y
  | _, _ => false                      (* NaN === NaN is false *)
  end.

(** [typeof v] *)
Definition typeof (v : Value) : string :=
  match v with
  | Undefined => "undefined"
  | Null => "object"
  | Bool _ => "boolean"
  | Num _ => "number"
  | Str _ => "string"
  | BigInt _ => "bigint"
  | Arr _ => "object"
  | Obj _ _ => "object"
  end.

(** ToBoolean: the test of [if (v)], [!v], [a || b]. *)
Definition truthy (v : Value) : bool :=
  match v with
  | Undefined => false
  | Null => false
  | Bool b => b
  | Num NaN => false
  | Num (Int z) => negb (Z.eqb z 0)
  | Str s => negb (String.eqb s EmptyString)
  | BigInt z => negb (Z.eqb z 0)
  | Arr _ => true
  | Obj _ _ => true
  end.

(** [a || b] *)
Definition or (a b : Value) : Value := if truthy a then a else b.

(** [a ?? b] *)
Definition nullish (a b : Value) : Value :=
  match a with
  | Undefined | Null => b
  | _ => a
  end.

Fixpoint lookup (k : string) (props : list (string * Value)) : option Value :=
  match props with
  | [] => None
  | (k', v) :: rest => if String.eqb k k' then Some v else lookup k rest
  end.

(** [v?.k]: [undefined] on [null] and [undefined], the property otherwise.
    An [Error] without an own [message] inherits the empty string from
    [Error.prototype]. Primitives and arrays have none of the properties the
    code reads ([status], [code], [reason], [message]). *)
Definition optGet (v : Value) (k : string) : Value :=
  match v with
  | Obj cls props =>
      match lookup k props with
      | Some x => x
      | None =>
          match cls with
          | Plain => Undefined
          | ErrorClass | HTTPErrorClass =>
              if String.eqb k "message" then Str EmptyString else Undefined
          end
      end
  | _ => Undefined
  end.

(** [v instanceof Error] and [v instanceof HTTPError] *)
Definition instanceofError (v : Value) : bool :=
  match v with
  | Obj ErrorClass _ | Obj HTTPErrorClass _ => true
  | _ => false
  end.

Definition instanceofHTTPError (v : Value) : bool :=
  match v with
  | Obj HTTPErrorClass _ => true
  | _ => false
  end.

(** [new Error(message)]; [new Error()] sets no own [message]. *)
Definition newError (message : option string) : Value :=
  match message with
  | Some m => Obj ErrorClass [("message", Str m)]
  | None => Obj ErrorClass []
  end.

(** Number::toString for radix 10, for the integers a number holds exactly
    (safe integers, which print digit for digit); beyond them JavaScript
    rounds and, from 1e21 on, prints in exponent form. *)
Definition Number_toString (n : Number) : string :=
  match n with
  | NaN => "NaN"
  | Int z => NilZero.string_of_int (Z.to_int z)
  end.

(** [parseInt(s, 10)] on a string: leading (ASCII) white space, an
    optional sign, then the longest run of decimal digits; [NaN] when there
    is no digit. *)
Definition isWhite (c : ascii) : bool :=
  let n := nat_of_ascii c in
  (Nat.eqb n 32 || (Nat.leb 9 n && Nat.leb n 13))%bool.

Definition digitOf (c : ascii) : option Z :=
  let n := nat_of_ascii c in
  if (Nat.leb 48 n && Nat.leb n 57)%bool then Some (Z.of_nat (n - 48)) else None.

Fixpoint skipWhite (s : string) : string :=
  match s with
  | String c rest => if isWhite c then skipWhite rest else s
  | EmptyString => s
  end.

Fixpoint readDigits (s : string) (acc : option Z) : option Z :=
  match s with
  | EmptyString => acc
  | String c rest =>
      match digitOf c with
      | Some d =>
          readDigits rest
            (Some (10 * match acc with Some a => a | None => 0 end + d))
      | None => acc
      end
  end.

Definition parseIntString (s : string) : Number :=
  let s := skipWhite s in
  let '(sign, digits) :=
    match s with
    | String "-"%char rest => (-1, rest)
    | String "+"%char rest => (1, rest)
    | _ => (1, s)
    end in
  match readDigits digits None with
  | Some n => Int (sign * n)
  | None => NaN
  end.

End JS.

Import JS.

(** A [Buffer] is its bytes. *)
Definition Buffer := list Byte.byte.

(** The built-ins of the host the source calls.  They are not code of this
  repository: the development is parametric in them. [JSON_stringify]
  answers a string or [undefined], or throws; the others are total. *)
Class Platform := {
  JSON_parse : string -> Completion Value;
  JSON_stringify : Value -> Completion Value;
  parseQueryString : string -> Value;
  Buffer_toString : Buffer -> string;
  Object_toString : Value -> string
}.

Section WithPlatform.

Context {P : Platform}.

(** ToString, as string concatenation and template literals apply it. *)
Definition ToString (v : Value) : string :=
  match v with
  | Undefined => "undefined"
  | Null => "null"
  | Bool true => "true"
  | Bool false => "false"
  | Num n => Number_toString n
  | Str s => s
  | BigInt z => Number_toString (Int z)
  | Arr _ | Obj _ _ => Object_toString v
  end.

(** [parseInt(v, 10)] *)
Definition parseInt (v : Value) : Number := parseIntString (ToString v).

(** [isJSON] of the fuller variant: does [JSON.stringify] return? *)
Definition isJSON (obj : Value) : bool :=
  match JSON_stringify obj with
  | Normal _ => true
  | Throw _ => false
  end.

(* =================================================================== *)
(** ** The body decoder, [App.parse] *)
(* =================================================================== *)

(** The classified content type; [null] is [None]. *)
Record ContentType := { type : string; subtype : string }.

(** How control leaves the outer [switch]: by a [return], or by reaching
    its end (a [break]). *)
Inductive SwitchExit := Returned (v : Value) | Broke.

(** Body of [case 'multipart':]. Every arm of its inner [switch] breaks;
    control then falls into [default: break]. *)
Definition case_multipart (contentType : ContentType) : Completion SwitchExit :=
  if String.eqb (subtype contentType) "form-data" then Normal Broke
  else Normal Broke.

(** Body of [case 'application':]. No [break] follows the inner [switch],
    so an arm that breaks falls through into [case 'multipart':]. *)
Definition case_application (contentType : ContentType) (buffer : Buffer)
  : Completion SwitchExit :=
  let sub := subtype contentType in
  if String.eqb sub "javascript" then case_multipart contentType
  else if String.eqb sub "json" then
    match JSON_parse (Buffer_toString buffer) with
    | Normal v => Normal (Returned v)
    | Throw e => Throw e
    end
  else if String.eqb sub "xml" then case_multipart contentType
  else if String.eqb sub "x-www-form-urlencoded" then
    Normal (Returned (parseQueryString (Buffer_toString buffer)))
  else case_multipart contentType.

(** Body of [case 'text':]. No [break] follows the inner [switch] either,
    so its [default] arm falls through into [case 'application':]. *)
Definition case_text (contentType : ContentType) (buffer : Buffer)
  : Completion SwitchExit :=
  let sub := subtype contentType in
  if String.eqb sub "plain" then Normal (Returned (Str (Buffer_toString buffer)))
  else if String.eqb sub "html" then Normal (Returned (Str (Buffer_toString buffer)))
  else case_application contentType buffer.

Definition switch_type (contentType : ContentType) (buffer : Buffer)
  : Completion SwitchExit :=
  let t := type contentType in
  if String.eqb t "text" then case_text contentType buffer
  else if String.eqb t "application" then case_application contentType buffer
  else if String.eqb t "multipart" then case_multipart contentType
  else Normal Broke.

Definition invalidContentType (what : string) : Value :=
  newError (Some ("Invalid content-type " ++ dquote ++ what ++ dquote ++ ".")).

(** [App.parse(contentType, buffer)]. The [catch] around the [switch] only
    logs (in development) and returns [undefined]. *)
Definition parse (contentType : option ContentType) (buffer : Buffer)
  : Completion Value :=
  match contentType with
  | None => Throw (invalidContentType "null")
  | Some ct =>
      match switch_type ct buffer with
      | Normal (Returned v) => Normal v
      | Throw error => Normal Undefined
      | Normal Broke =>
          Throw (invalidContentType (type ct ++ "/" ++ subtype ct))
      end
  end.

(* =================================================================== *)
(** ** The lazy body accessor, [request.body()] *)
(* =================================================================== *)

Inductive Promise := Pending | Fulfilled (v : Value) | Rejected (e : Value).

(** [resolve] and [reject] settle a pending promise and do nothing after. *)
Definition resolve (v : Value) (p : Promise) : Promise :=
  match p with Pending => Fulfilled v | _ => p end.

Definition reject (e : Value) (p : Promise) : Promise :=
  match p with Pending => Rejected e | _ => p end.

(** The closure of [body()]: the [buffer] variable (unset at first) and the
    promise it returned. *)
Record BodyReader := { buffer : option Buffer; promise : Promise }.

(** The callback given to [res.onData]. *)
Definition onData (contentType : option ContentType) (st : BodyReader)
           (chunk : Buffer * bool) : BodyReader :=
  let '(curBuf, isLast) := chunk in
  let buffer' :=
    match buffer st with
    | Some b => (b ++ curBuf)%list
    | None => if isLast then curBuf else (curBuf ++ [])%list
    end in
  if isLast then
    match parse contentType buffer' with
    | Normal body => {| buffer := Some buffer'; promise := resolve body (promise st) |}
    | Throw error => {| buffer := Some buffer'; promise := reject error (promise st) |}
    end
  else {| buffer := Some buffer'; promise := promise st |}.

(** [body()] after the transport delivered [chunks], each with its
    [isLast] mark. *)
Definition body (contentType : option ContentType) (chunks : list (Buffer * bool))
  : Promise :=
  promise (fold_left (onData contentType) chunks {| buffer := None; promise := Pending |}).

(* =================================================================== *)
(** ** The response guard and the transport *)
(* =================================================================== *)

(** The calls made on the transport's response, in order. *)
Inductive WireOp :=
| WriteStatus (status : string)
| WriteHeader (key value : string)
| End (body : Value).

(** One request being handled: the four flags the source keeps on [res]
    (unset is [false]), what was written to the transport, and whether
    [req.setYield(true)] was called. *)
Record Exchange := {
  aborted : bool;
  done : bool;
  calledNext : bool;
  calledSend : bool;
  wire : list WireOp;
  yield : bool
}.

Definition fresh : Exchange :=
  {| aborted := false; done := false; calledNext := false; calledSend := false;
     wire := []; yield := false |}.

Definition set_aborted (x : Exchange) : Exchange :=
  {| aborted := true; done := done x; calledNext := calledNext x;
     calledSend := calledSend x; wire := wire x; yield := yield x |}.

Definition set_done (x : Exchange) : Exchange :=
  {| aborted := aborted x; done := true; calledNext := calledNext x;
     calledSend := calledSend x; wire := wire x; yield := yield x |}.

Definition set_calledNext (x : Exchange) : Exchange :=
  {| aborted := aborted x; done := done x; calledNext := true;
     calledSend := calledSend x; wire := wire x; yield := yield x |}.

Definition set_calledSend (x : Exchange) : Exchange :=
  {| aborted := aborted x; done := done x; calledNext := calledNext x;
     calledSend := true; wire := wire x; yield := yield x |}.

Definition set_yield (x : Exchange) : Exchange :=
  {| aborted := aborted x; done := done x; calledNext := calledNext x;
     calledSend := calledSend x; wire := wire x; yield := true |}.

Definition emit (op : WireOp) (x : Exchange) : Exchange :=
  {| aborted := aborted x; done := done x; calledNext := calledNext x;
     calledSend := calledSend x; wire := (wire x ++ [op])%list; yield := yield x |}.

(** Code that runs on an exchange and may throw. *)
Definition M (A : Type) : Type := Exchange -> Completion A * Exchange.

Definition ret {A} (a : A) : M A := fun x => (Normal a, x).

Definition bind {A B} (m : M A) (k : A -> M B) : M B :=
  fun x =>
    match m x with
    | (Normal a, x') => k a x'
    | (Throw e, x') => (Throw e, x')
    end.

Definition throw {A} (e : Value) : M A := fun x => (Throw e, x).

(** [try { m } catch (error) { h error }] *)
Definition tryCatch {A} (m : M A) (h : Value -> M A) : M A :=
  fun x =>
    match m x with
    | (Normal a, x') => (Normal a, x')
    | (Throw e, x') => h e x'
    end.

Definition read {A} (f : Exchange -> A) : M A := fun x => (Normal (f x), x).

Definition update (f : Exchange -> Exchange) : M unit := fun x => (Normal tt, f x).

Definition lift {A} (c : Completion A) : M A := fun x => (c, x).

Notation "x <- m ;; k" := (bind m (fun x => k))
  (at level 61, m at next level, right associativity).
Notation "m ;; k" := (bind m (fun _ => k))
  (at level 61, right associativity).

(** The final exchange of a computation. *)
Definition exec {A} (m : M A) (x : Exchange) : Exchange := snd (m x).

(** The transport's response methods. [cork] runs its callback at once. *)
Definition writeStatus (status : string) : M unit := update (emit (WriteStatus status)).
Definition writeHeader (key value : string) : M unit := update (emit (WriteHeader key value)).
Definition end_ (body : Value) : M unit := update (emit (End body)).
Definition cork (callback : M unit) : M unit := callback.

(** The three bail-outs that open [response.send] and the [catch] block:
    run [m] only when the response is neither aborted, nor done, nor
    handed on with [next()]. *)
Definition guarded (m : M unit) : M unit :=
  a <- read aborted ;;
  if a then ret tt else
  d <- read done ;;
  if d then ret tt else
  n <- read calledNext ;;
  if n then ret tt else
  m.

(** The two variants of the framework in the source. *)
Inductive Variant := Fuller | Minimal.

(** [response.send(body)], fuller variant. *)
Definition send_fuller (body : Value) : M unit :=
  guarded (
    update set_calledSend ;;
    if (String.eqb (typeof body) "string" || String.eqb (typeof body) "number")%bool then
      cork (update set_done ;;
            writeStatus "200 OK" ;;
            end_ body)
    else if isJSON body then
      update set_done ;;
      cork (update set_done ;;
            writeStatus "200 OK" ;;
            writeHeader "Content-Type" "application/json" ;;
            json <- lift (JSON_stringify body) ;;
            end_ json)
    else ret tt).

(** [response.send(body)], minimal variant. *)
Definition send_minimal (body : Value) : M unit :=
  guarded (
    update set_calledSend ;;
    if String.eqb (typeof body) "string" then
      update set_done ;;
      cork (writeStatus "200 OK" ;;
            end_ body)
    else if String.eqb (typeof body) "object" then
      update set_done ;;
      cork (writeStatus "200 OK" ;;
            writeHeader "Content-Type" "application/json" ;;
            json <- lift (JSON_stringify body) ;;
            end_ json)
    else ret tt).

Definition send (v : Variant) : Value -> M unit :=
  match v with
  | Fuller => send_fuller
  | Minimal => send_minimal
  end.

(** [next()] *)
Definition next : M unit :=
  update set_calledNext ;;
  update set_yield.

(** [new HTTPError(code, message)] *)
Definition newHTTPError (code : Number) (message : option string) : Value :=
  match message with
  | Some m => Obj HTTPErrorClass [("message", Str m); ("code", Num code)]
  | None => Obj HTTPErrorClass [("code", Num code)]
  end.

(** The text the generic rendering at the end of both [catch] blocks
    builds, from the value the status is parsed from: [status], [reason]
    and [message] of the source. *)
Definition genericMessage (statusSource : Value) (error : Value) : string :=
  let status := parseInt statusSource in
  let reason :=
    or (or (optGet error "reason") (optGet error "message"))
       (if Number_eqb status (Int 500) then Str "Internal Server Error"
        else Str EmptyString) in
  Number_toString status ++
  (if truthy reason then " " ++ ToString reason else EmptyString).

Definition replyGeneric (statusSource : Value) (error : Value) : M unit :=
  let message := genericMessage statusSource error in
  writeStatus message ;;
  end_ (Str message).

(** The text for an [HTTPError]: its code, a space, its message. *)
Definition httpErrorMessage (error : Value) : string :=
  ToString (optGet error "code") ++ " " ++ ToString (optGet error "message").

(** The [catch] block, fuller variant. *)
Definition onError_fuller (error : Value) : M unit :=
  guarded (
    update set_done ;;
    cork (
      if instanceofHTTPError error then
        let message := httpErrorMessage error in
        writeStatus message ;;
        end_ (Str message)
      else
        replyGeneric
          (nullish (nullish (optGet error "status") (optGet error "code")) (Str "500"))
          error)).

(** The [catch] block, minimal variant. *)
Definition onError_minimal (error : Value) : M unit :=
  guarded (
    update set_done ;;
    cork (replyGeneric (nullish (optGet error "status") (Str "500")) error)).

(** How the awaited handler call ends. *)
Inductive Outcome := Returns (v : Value) | Throws (e : Value).

Definition await (o : Outcome) : M Value :=
  match o with
  | Returns v => ret v
  | Throws e => throw e
  end.

(** The [try]/[catch] of the route callback once the handler's promise
    settles, fuller variant. *)
Definition settle_fuller (o : Outcome) : M unit :=
  tryCatch
    (body <- await o ;;
     s <- read calledSend ;;
     if s then ret tt else
     if negb (truthy body) then throw (newHTTPError (Int 204) (Some "No Content")) else
     if instanceofError body then throw body else
     send_fuller body)
    onError_fuller.

(** The same, minimal variant. *)
Definition settle_minimal (o : Outcome) : M unit :=
  tryCatch
    (body <- await o ;;
     s <- read calledSend ;;
     if s then ret tt else
     if negb (truthy body) then ret tt else
     if instanceofError body then throw body else
     send_minimal body)
    onError_minimal.

Definition settle (v : Variant) : Outcome -> M unit :=
  match v with
  | Fuller => settle_fuller
  | Minimal => settle_minimal
  end.

(** What can happen to an exchange while its handler runs or after:
    the handler calls [response.send] or [next], the transport reports an
    abort. An exception [send] throws into the handler is the handler's to
    deal with: whatever it does next is more events or its outcome. *)
Inductive Event :=
| CallSend (body : Value)
| CallNext
| Abort.

Definition occur (v : Variant) (x : Exchange) (e : Event) : Exchange :=
  match e with
  | CallSend body => exec (send v body) x
  | CallNext => exec next x
  | Abort => set_aborted x
  end.

(** One invocation of a handler, as the framework sees it: the events up to
    the moment its promise settles, how it settles (if ever), and the events
    that come later (a timer firing a late [send], a late abort). *)
Record HandlerRun := {
  before : list Event;
  outcome : option Outcome;
  after : list Event
}.

(** The route callback [async (res, req) => ...] on a fresh exchange. *)
Definition dispatch (v : Variant) (h : HandlerRun) : Exchange :=
  let x := fold_left (occur v) (before h) fresh in
  let x :=
    match outcome h with
    | Some o => exec (settle v o) x
    | None => x
    end in
  fold_left (occur v) (after h) x.

End WithPlatform.

(* =================================================================== *)
(** ** The application object and route registration *)
(* =================================================================== *)

Inductive Method := ANY | GET | POST | PUT | PATCH | DEL | OPTIONS | CONNECT | HEAD.

(** The request facade handed to a handler. *)
Record Request := { query : Value; headers : Value; url : string }.

(** A handler, by what it does on a request. *)
Definition RouteHandler := Request -> HandlerRun.

Record Route := { method : Method; path : string; handler : RouteHandler }.

(** The [App] instance: its host and port and what it registered with the
    transport. *)
Record App := { host : string; port : Z; routes : list Route }.

Record Options := { optHost : option string; optPort : option Z }.

(** [new App(options)] *)
Definition newApp (options : Options) : App :=
  {| host :=
       match optHost options with
       | Some h => if String.eqb h "localhost" then "127.0.0.1" else h
       | None => "0.0.0.0"
       end;
     port := match optPort options with Some p => p | None => 0 end;
     routes := [] |}.

(** What a method call on the instance evaluates to. *)
Inductive Result := This | NoValue.

Definition register (m : Method) (p : string) (h : RouteHandler) (app : App) : App :=
  {| host := host app; port := port app;
     routes := (routes app ++ [{| method := m; path := p; handler := h |}])%list |}.

(** A registration method: the instance after the call and what the call
    returned. *)
Definition Registration := string -> RouteHandler -> App -> App * Result.

Module FullerApp.

(** [handle] ends with [return this]. *)
Definition handle (m : Method) : Registration :=
  fun p h app => (register m p h app, This).

Definition use : Registration := fun p h app => handle ANY p h app.
Definition get : Registration := fun p h app => handle GET p h app.
Definition post : Registration := fun p h app => handle POST p h app.
Definition put : Registration := fun p h app => handle PUT p h app.
Definition patch : Registration := fun p h app => handle PATCH p h app.
Definition delete : Registration := fun p h app => handle DEL p h app.
Definition options : Registration := fun p h app => handle OPTIONS p h app.
Definition connect : Registration := fun p h app => handle CONNECT p h app.
Definition head : Registration := fun p h app => handle HEAD p h app.

Definition registrations : list Registration :=
  [use; get; post; put; patch; delete; options; connect; head].

End FullerApp.

Module MinimalApp.

(** [handle] has no [return]. *)
Definition handle (m : Method) : Registration :=
  fun p h app => (register m p h app, NoValue).

(** Each method calls [this.handle(...)] as a statement and drops its
    value. *)
Definition use : Registration := fun p h app => (fst (handle ANY p h app), NoValue).
Definition get : Registration := fun p h app => (fst (handle GET p h app), NoValue).
Definition post : Registration := fun p h app => (fst (handle POST p h app), NoValue).
Definition put : Registration := fun p h app => (fst (handle PUT p h app), NoValue).
Definition patch : Registration := fun p h app => (fst (handle PATCH p h app), NoValue).
Definition delete : Registration := fun p h app => (fst (handle DEL p h app), NoValue).
Definition options : Registration := fun p h app => (fst (handle OPTIONS p h app), NoValue).
Definition connect : Registration := fun p h app => (fst (handle CONNECT p h app), NoValue).
Definition head : Registration := fun p h app => (fst (handle HEAD p h app), NoValue).

Definition registrations : list Registration :=
  [use; get; post; put; patch; delete; options; connect; head].

End MinimalApp.

Definition registrations (v : Variant) : list Registration :=
  match v with
  | Fuller => FullerApp.registrations
  | Minimal => MinimalApp.registrations
  end.

(** A chained call [previous.method(p, h)]: it needs the previous call to
    have returned the instance; on [undefined] it is a [TypeError]. *)
Definition chain (previous : App * Result) (m : Registration) (p : string)
           (h : RouteHandler) : Completion (App * Result) :=
  match previous with
  | (app, This) => Normal (m p h app)
  | (_, NoValue) =>
      Throw (newError (Some "Cannot read properties of undefined"))
  end.

(* =================================================================== *)
(** ** A reference platform *)
(* =================================================================== *)

(** An executable instance of [Platform], to run the code on concrete
    inputs. Strings hold UTF-8 bytes. It covers JSON whose number literals
    are integers: a literal with a fraction or an exponent denotes a double
    outside [JS.Number] and is not accepted. *)
Module Ref.

Definition syntaxError : Value :=
  newError (Some "Unexpected token in JSON").

Definition typeError : Value :=
  newError (Some "Do not know how to serialize a BigInt").

Fixpoint skipBlank (s : string) : string :=
  match s with
  | String c rest =>
      let n := nat_of_ascii c in
      if (Nat.eqb n 32 || Nat.eqb n 9 || Nat.eqb n 10 || Nat.eqb n 13)%bool
      then skipBlank rest else s
  | EmptyString => s
  end.

(** [dropPrefix p s]: the rest of [s] after its prefix [p]. *)
Fixpoint dropPrefix (p s : string) : option string :=
  match p, s with
  | EmptyString, _ => Some s
  | String a p', String b s' => if Ascii.eqb a b then dropPrefix p' s' else None
  | String _ _, EmptyString => None
  end.

Definition hexOf (c : ascii) : option nat :=
  let n := nat_of_ascii c in
  if (Nat.leb 48 n && Nat.leb n 57)%bool then Some (n - 48)%nat
  else if (Nat.leb 65 n && Nat.leb n 70)%bool then Some (n - 55)%nat
  else if (Nat.leb 97 n && Nat.leb n 102)%bool then Some (n - 87)%nat
  else None.

(** UTF-8 of a code point of the basic plane. *)
Definition utf8 (n : nat) : string :=
  if Nat.ltb n 128 then String (ascii_of_nat n) EmptyString
  else if Nat.ltb n 2048 then
    String (ascii_of_nat (192 + n / 64))
      (String (ascii_of_nat (128 + n mod 64)) EmptyString)
  else
    String (ascii_of_nat (224 + n / 4096))
      (String (ascii_of_nat (128 + (n / 64) mod 64))
         (String (ascii_of_nat (128 + n mod 64)) EmptyString)).

(** The characters of a JSON string after its opening quote, and what
    follows the closing quote. *)
Fixpoint parseChars (s : string) : option (string * string) :=
  match s with
  | EmptyString => None
  | String c rest =>
      if Ascii.eqb c "034" then Some (EmptyString, rest)
      else if Ascii.eqb c "\" then
        match rest with
        | String e rest1 =>
            let continue (decoded : string) (r : option (string * string)) :=
              match r with
              | Some (str, tail) => Some (decoded ++ str, tail)
              | None => None
              end in
            if Ascii.eqb e "034" then continue dquote (parseChars rest1)
            else if Ascii.eqb e "\" then continue "\" (parseChars rest1)
            else if Ascii.eqb e "/" then continue "/" (parseChars rest1)
            else if Ascii.eqb e "b" then continue (String "008" EmptyString) (parseChars rest1)
            else if Ascii.eqb e "f" then continue (String "012" EmptyString) (parseChars rest1)
            else if Ascii.eqb e "n" then continue (String "010" EmptyString) (parseChars rest1)
            else if Ascii.eqb e "r" then continue (String "013" EmptyString) (parseChars rest1)
            else if Ascii.eqb e "t" then continue (String "009" EmptyString) (parseChars rest1)
            else if Ascii.eqb e "u" then
              match rest1 with
              | String h1 (String h2 (String h3 (String h4 rest2))) =>
                  match hexOf h1, hexOf h2, hexOf h3, hexOf h4 with
                  | Some a, Some b, Some c', Some d =>
                      continue (utf8 (((a * 16 + b) * 16 + c') * 16 + d)%nat)
                               (parseChars rest2)
                  | _, _, _, _ => None
                  end
              | _ => None
              end
            else None
        | EmptyString => None
        end
      else if Nat.ltb (nat_of_ascii c) 32 then None
      else
        match parseChars rest with
        | Some (str, tail) => Some (String c str, tail)
        | None => None
        end
  end.

Fixpoint spanDigits (s : string) : string * string :=
  match s with
  | String c rest =>
      match digitOf c with
      | Some _ => let '(ds, tail) := spanDigits rest in (String c ds, tail)
      | None => (EmptyString, s)
      end
  | EmptyString => (EmptyString, s)
  end.

(** An integer literal: no leading zero, no fraction, no exponent. *)
Definition parseNumber (s : string) : option (Value * string) :=
  let '(negative, unsigned) :=
    match s with
    | String "-"%char rest => (true, rest)
    | _ => (false, s)
    end in
  let '(ds, tail) := spanDigits unsigned in
  let wellFormed :=
    match ds with
    | EmptyString => false
    | String "0"%char (String _ _) => false
    | _ => true
    end in
  let integral :=
    match tail with
    | String c _ => negb (Ascii.eqb c "." || Ascii.eqb c "e" || Ascii.eqb c "E")%bool
    | EmptyString => true
    end in
  if (wellFormed && integral)%bool then
    match readDigits ds None with
    | Some n => Some (Num (Int (if negative then - n else n)), tail)
    | None => None
    end
  else None.

Fixpoint removeKey (k : string) (props : list (string * Value)) : list (string * Value) :=
  match props with
  | [] => []
  | (k', v) :: rest =>
      if String.eqb k k' then removeKey k rest else (k', v) :: removeKey k rest
  end.

(** A member in front of the members that follow it: a later duplicate of
    its key keeps the place and gives the value. *)
Definition consMember (k : string) (v : Value) (later : list (string * Value))
  : list (string * Value) :=
  match lookup k later with
  | Some v' => (k, v') :: removeKey k later
  | None => (k, v) :: later
  end.

Fixpoint parseValue (fuel : nat) (s : string) : option (Value * string) :=
  match fuel with
  | O => None
  | S fuel' =>
      let s := skipBlank s in
      match s with
      | EmptyString => None
      | String c rest =>
          if Ascii.eqb c "n" then
            option_map (fun r => (Null, r)) (dropPrefix "null" s)
          else if Ascii.eqb c "t" then
            option_map (fun r => (Bool true, r)) (dropPrefix "true" s)
          else if Ascii.eqb c "f" then
            option_map (fun r => (Bool false, r)) (dropPrefix "false" s)
          else if Ascii.eqb c "034" then
            option_map (fun '(str, r) => (Str str, r)) (parseChars rest)
          else if Ascii.eqb c "[" then
            match skipBlank rest with
            | String "]"%char r => Some (Arr [], r)
            | inner =>
                option_map (fun '(vs, r) => (Arr vs, r)) (parseElements fuel' inner)
            end
          else if Ascii.eqb c "{" then
            match skipBlank rest with
            | String "}"%char r => Some (Obj Plain [], r)
            | inner =>
                option_map (fun '(ms, r) => (Obj Plain ms, r)) (parseMembers fuel' inner)
            end
          else parseNumber s
      end
  end
with parseElements (fuel : nat) (s : string) : option (list Value * string) :=
  match fuel with
  | O => None
  | S fuel' =>
      match parseValue fuel' s with
      | Some (v, r) =>
          match skipBlank r with
          | String "]"%char r' => Some ([v], r')
          | String ","%char r' =>
              option_map (fun '(vs, r'') => (v :: vs, r'')) (parseElements fuel' r')
          | _ => None
          end
      | None => None
      end
  end
with parseMembers (fuel : nat) (s : string) : option (list (string * Value) * string) :=
  match fuel with
  | O => None
  | S fuel' =>
      match skipBlank s with
      | String "034"%char r =>
          match parseChars r with
          | Some (k, r1) =>
              match skipBlank r1 with
              | String ":"%char r2 =>
                  match parseValue fuel' r2 with
                  | Some (v, r3) =>
                      match skipBlank r3 with
                      | String "}"%char r4 => Some ([(k, v)], r4)
                      | String ","%char r4 =>
                          option_map (fun '(ms, r5) => (consMember k v ms, r5))
                                     (parseMembers fuel' r4)
                      | _ => None
                      end
                  | None => None
                  end
              | _ => None
              end
          | None => None
          end
      | _ => None
      end
  end.

(** [JSON.parse]: one value, then nothing but blanks. *)
Definition JSON_parse (s : string) : Completion Value :=
  match parseValue (2 * String.length s + 2) s with
  | Some (v, r) =>
      match skipBlank r with
      | EmptyString => Normal v
      | _ => Throw syntaxError
      end
  | None => Throw syntaxError
  end.

(** The characters of a string inside a JSON string literal. *)
Definition hexDigit (n : nat) : ascii :=
  if Nat.ltb n 10 then ascii_of_nat (48 + n) else ascii_of_nat (87 + n).

Fixpoint escape (s : string) : string :=
  match s with
  | EmptyString => EmptyString
  | String c rest =>
      let n := nat_of_ascii c in
      (if Ascii.eqb c "034" then "\" ++ dquote
       else if Ascii.eqb c "\" then "\\"
       else if Nat.eqb n 8 then "\b"
       else if Nat.eqb n 9 then "\t"
       else if Nat.eqb n 10 then "\n"
       else if Nat.eqb n 12 then "\f"
       else if Nat.eqb n 13 then "\r"
       else if Nat.ltb n 32 then
         "\u00" ++ String (hexDigit (n / 16)) (String (hexDigit (n mod 16)) EmptyString)
       else String c EmptyString) ++ escape rest
  end.

Definition quote (s : string) : string := dquote ++ escape s ++ dquote.

Fixpoint join (sep : string) (parts : list string) : string :=
  match parts with
  | [] => EmptyString
  | [x] => x
  | x :: rest => x ++ sep ++ join sep rest
  end.

(** The serialization of a value: [Normal None] is [undefined], a [Throw]
    is the [TypeError] a [BigInt] raises. An [Error]'s [message] is not
    enumerable. *)
Fixpoint serialize (v : Value) : Completion (option string) :=
  match v with
  | Undefined => Normal None
  | Null => Normal (Some "null")
  | Bool true => Normal (Some "true")
  | Bool false => Normal (Some "false")
  | Num NaN => Normal (Some "null")
  | Num n => Normal (Some (Number_toString n))
  | Str s => Normal (Some (quote s))
  | BigInt _ => Throw typeError
  | Arr elems =>
      let fix items (l : list Value) : Completion (list string) :=
        match l with
        | [] => Normal []
        | e :: rest =>
            match serialize e, items rest with
            | Normal (Some s), Normal ss => Normal (s :: ss)
            | Normal None, Normal ss => Normal ("null" :: ss)
            | Throw err, _ => Throw err
            | _, Throw err => Throw err
            end
        end in
      match items elems with
      | Normal ss => Normal (Some ("[" ++ join "," ss ++ "]"))
      | Throw err => Throw err
      end
  | Obj cls props =>
      let hidden (k : string) : bool :=
        match cls with
        | Plain => false
        | ErrorClass | HTTPErrorClass => String.eqb k "message"
        end in
      let fix members (l : list (string * Value)) : Completion (list string) :=
        match l with
        | [] => Normal []
        | (k, e) :: rest =>
            if hidden k then members rest else
            match serialize e, members rest with
            | Normal (Some s), Normal ss => Normal ((quote k ++ ":" ++ s) :: ss)
            | Normal None, Normal ss => Normal ss
            | Throw err, _ => Throw err
            | _, Throw err => Throw err
            end
        end in
      match members props with
      | Normal ss => Normal (Some ("{" ++ join "," ss ++ "}"))
      | Throw err => Throw err
      end
  end.

(** [JSON.stringify] *)
Definition JSON_stringify (v : Value) : Completion Value :=
  match serialize v with
  | Normal (Some s) => Normal (Str s)
  | Normal None => Normal Undefined
  | Throw err => Throw err
  end.

(** ToString on every value: [Array#toString] joins with commas,
    [Error#toString] is the name and the message, a plain object is
    [[object Object]]. *)
Fixpoint toString (v : Value) : string :=
  match v with
  | Undefined => "undefined"
  | Null => "null"
  | Bool true => "true"
  | Bool false => "false"
  | Num n => Number_toString n
  | Str s => s
  | BigInt z => Number_toString (Int z)
  | Arr elems =>
      let fix items (l : list Value) : list string :=
        match l with
        | [] => []
        | Undefined :: rest => EmptyString :: items rest
        | Null :: rest => EmptyString :: items rest
        | e :: rest => toString e :: items rest
        end in
      join "," (items elems)
  | Obj Plain _ => "[object Object]"
  | Obj _ props =>
      let fix message (l : list (string * Value)) : string :=
        match l with
        | [] => EmptyString
        | (k, e) :: rest => if String.eqb k "message" then toString e else message rest
        end in
      let m := message props in
      if String.eqb m EmptyString then "Error" else "Error: " ++ m
  end.

(** [querystring.unescape], and [+] for a space. *)
Fixpoint unescape (s : string) : string :=
  match s with
  | EmptyString => EmptyString
  | String c rest =>
      if Ascii.eqb c "+" then String " " (unescape rest)
      else if Ascii.eqb c "%" then
        match rest with
        | String h1 (String h2 rest') =>
            match hexOf h1, hexOf h2 with
            | Some a, Some b => String (ascii_of_nat (a * 16 + b)) (unescape rest')
            | _, _ => String c (unescape rest)
            end
        | _ => String c (unescape rest)
        end
      else String c (unescape rest)
  end.

(** Split at every [sep]. *)
Fixpoint split (sep : ascii) (s : string) : list string :=
  match s with
  | EmptyString => [EmptyString]
  | String c rest =>
      if Ascii.eqb c sep then EmptyString :: split sep rest
      else
        match split sep rest with
        | x :: xs => String c x :: xs
        | [] => [String c EmptyString]
        end
  end.

(** Cut at the first [=]. *)
Fixpoint cut (s : string) : string * string :=
  match s with
  | EmptyString => (EmptyString, EmptyString)
  | String c rest =>
      if Ascii.eqb c "=" then (EmptyString, rest)
      else let '(k, v) := cut rest in (String c k, v)
  end.

(** Adding a pair to the result: a repeated key collects its values in an
    array. *)
Fixpoint addPair (k : string) (v : string) (props : list (string * Value))
  : list (string * Value) :=
  match props with
  | [] => [(k, Str v)]
  | (k', old) :: rest =>
      if String.eqb k k' then
        match old with
        | Arr vs => (k', Arr (vs ++ [Str v])) :: rest
        | _ => (k', Arr [old; Str v]) :: rest
        end
      else (k', old) :: addPair k v rest
  end.

(** [querystring.parse] *)
Definition parseQueryString (s : string) : Value :=
  Obj Plain
    (fold_left
       (fun props segment =>
          if String.eqb segment EmptyString then props
          else let '(k, v) := cut segment in addPair (unescape k) (unescape v) props)
       (split "&" s) []).

End Ref.

Definition RefPlatform : Platform := {|
  JSON_parse := Ref.JSON_parse;
  JSON_stringify := Ref.JSON_stringify;
  parseQueryString := Ref.parseQueryString;
  Buffer_toString := string_of_list_byte;
  Object_toString := Ref.toString
|}.

(** The bytes of a string, to write buffers as text. *)
Definition bytes (s : string) : Buffer := list_byte_of_string s.

(* =================================================================== *)
(** ** Vocabulary of the properties *)
(* =================================================================== *)

(** A guard flag that stops every write is set. *)
Definition blocked (x : Exchange) : bool :=
  (aborted x || done x || calledNext x)%bool.

Definition isEnd (op : WireOp) : bool :=
  match op with End _ => true | _ => false end.

Definition isStatus (op : WireOp) : bool :=
  match op with WriteStatus _ => true | _ => false end.

(** How many responses were ended, and how many status lines written. *)
Definition ends (w : list WireOp) : nat := length (filter isEnd w).
Definition statuses (w : list WireOp) : nat := length (filter isStatus w).

(** The exchange after the one terminal write of a text: done, with the
    status line and the body on the wire. *)
Definition replied (status : string) (body : Value) (x : Exchange) : Exchange :=
  emit (End body) (emit (WriteStatus status) (set_done x)).

(** A step that writes nothing and leaves [done] as it was. *)
Definition quiet (x x' : Exchange) : Prop :=
  wire x' = wire x /\ done x' = done x.

(** A step that writes: no flag stopped it, it marks the response done and
    it adds at most one status line and at most one end. *)
Definition wrote (x x' : Exchange) : Prop :=
  blocked x = false /\ done x' = true /\
  exists ops, wire x' = (wire x ++ ops)%list /\
              (ends ops <= 1)%nat /\ (statuses ops <= 1)%nat.

(** The invariant of the response guard: nothing is on the wire before the
    response is done, and the wire never holds two status lines or two
    ends. *)
Definition guardInvariant (x : Exchange) : Prop :=
  (done x = false -> wire x = []) /\
  (ends (wire x) <= 1)%nat /\ (statuses (wire x) <= 1)%nat.

(** The chunks of a body before the last one. *)
Definition notLast (chunk : Buffer * bool) : Prop := snd chunk = false.

Definition gathered (chunks : list (Buffer * bool)) : Buffer :=
  concat (map fst chunks).

(** The bytes held by the [buffer] variable of [body()]. *)
Definition contents (b : option Buffer) : Buffer :=
  match b with Some bs => bs | None => [] end.

Section ErrorText.

Context {P : Platform}.

(** The text each variant's [catch] block writes for an error. *)
Definition errorText (v : Variant) (error : Value) : string :=
  match v with
  | Fuller =>
      if instanceofHTTPError error then httpErrorMessage error
      else genericMessage
             (nullish (nullish (optGet error "status") (optGet error "code")) (Str "500"))
             error
  | Minimal =>
      genericMessage (nullish (optGet error "status") (Str "500")) error
  end.

End ErrorText.

Section ErrorTextOfTheSpecification.

Context {P : Platform}.

(** The generic rendering as the specification words it. The status is
    derived from the error's optional [status] or ([useCode]) [code] field,
    500 by default. *)
Definition specStatus (useCode : bool) (error : Value) : Number :=
  match optGet error "status" with
  | Undefined | Null =>
      if useCode then
        match optGet error "code" with
        | Undefined | Null => Int 500
        | code => parseInt code
        end
      else Int 500
  | status => parseInt status
  end.

(** The reason is the error's optional [reason] or [message] field; without
    either it is [Internal Server Error] when the status is exactly 500 and
    empty otherwise. *)
Definition specReason (error : Value) (status : Number) : Value :=
  if truthy (optGet error "reason") then optGet error "reason"
  else if truthy (optGet error "message") then optGet error "message"
  else if Number_eqb status (Int 500) then Str "Internal Server Error"
  else Str EmptyString.

(** The wire message is the status, a space and the reason, and just the
    status when the reason is empty. *)
Definition specErrorText (useCode : bool) (error : Value) : string :=
  let status := specStatus useCode error in
  let reason := specReason error status in
  if truthy reason then Number_toString status ++ " " ++ ToString reason
  else Number_toString status.

End ErrorTextOfTheSpecification.

(** Whether a variant reads the [code] field of a generic error. *)
Definition readsCode (v : Variant) : bool :=
  match v with Fuller => true | Minimal => false end.


Section DecisionTable.

Context {P : Platform}.

(** The rows of the decision table of the specification. *)
Inductive Decision := AsText | AsJSON | AsForm | Unsupported | InvalidContentType.

(** The decision table as the specification words it: the first row that
    matches the type and the subtype wins; a row matches by both. *)
Definition decisionTable (contentType : option ContentType) : Decision :=
  match contentType with
  | None => InvalidContentType
  | Some ct =>
      let t := type ct in
      let sub := subtype ct in
      if (String.eqb t "text" && (String.eqb sub "plain" || String.eqb sub "html"))%bool
      then AsText
      else if (String.eqb t "application" && String.eqb sub "json")%bool then AsJSON
      else if (String.eqb t "application" && String.eqb sub "x-www-form-urlencoded")%bool
      then AsForm
      else Unsupported
  end.

(** The row the code takes, read off the value [parse] computes: which
    built-in produced a returned value, or which error was thrown. *)
Definition decisionOfCode (contentType : option ContentType) : Decision :=
  match contentType with
  | None => InvalidContentType
  | Some ct =>
      let t := type ct in
      let sub := subtype ct in
      if String.eqb t "text" then
        if (String.eqb sub "plain" || String.eqb sub "html")%bool then AsText
        else if String.eqb sub "json" then AsJSON
        else if String.eqb sub "x-www-form-urlencoded" then AsForm
        else Unsupported
      else if String.eqb t "application" then
        if String.eqb sub "json" then AsJSON
        else if String.eqb sub "x-www-form-urlencoded" then AsForm
        else Unsupported
      else Unsupported
  end.

(** What a row does with the buffer. A JSON syntax error is caught inside
    [parse], which then returns [undefined]. *)
Definition perform (d : Decision) (contentType : option ContentType) (buffer : Buffer)
  : Completion Value :=
  match d with
  | AsText => Normal (Str (Buffer_toString buffer))
  | AsJSON =>
      match JSON_parse (Buffer_toString buffer) with
      | Normal v => Normal v
      | Throw _ => Normal Undefined
      end
  | AsForm => Normal (parseQueryString (Buffer_toString buffer))
  | Unsupported =>
      match contentType with
      | Some ct => Throw (invalidContentType (type ct ++ "/" ++ subtype ct))
      | None => Throw (invalidContentType "null")
      end
  | InvalidContentType => Throw (invalidContentType "null")
  end.

End DecisionTable.

(** Concrete inputs. *)
Definition textJson : ContentType := {| type := "text"; subtype := "json" |}.
Definition applicationJson : ContentType := {| type := "application"; subtype := "json" |}.

(** The text [{"a":1}]. *)
Definition sampleJson : string := "{" ++ dquote ++ "a" ++ dquote ++ ":1}".

(** A handler that only settles. *)
Definition settling (o : Outcome) : HandlerRun :=
  {| before := []; outcome := Some o; after := [] |}.

(** A handler that calls [response.send] and returns nothing. *)
Definition sending (body : Value) : HandlerRun :=
  {| before := [CallSend body]; outcome := Some (Returns Undefined); after := [] |}.

Definition emptyApp : App := newApp {| optHost := Some "localhost"; optPort := Some 0 |}.

Definition helloHandler : RouteHandler := fun _ => settling (Returns (Str "Hello World!")).

(* =================================================================== *)
(** ** The rest of the route callback: the request facade *)
(* =================================================================== *)

(** [object[key] = value] on an object's own properties: an existing key
    keeps its place and takes the value, a new key goes last. *)
Fixpoint assign (k : string) (v : Value) (props : list (string * Value))
  : list (string * Value) :=
  match props with
  | [] => [(k, v)]
  | (k', v') :: rest =>
      if String.eqb k k' then (k', v) :: rest else (k', v') :: assign k v rest
  end.

(** The own property names of [Object.prototype], which the plain object
    [{}] inherits. *)
Definition objectPrototypeNames : list string :=
  ["constructor"; "__defineGetter__"; "__defineSetter__"; "hasOwnProperty";
   "__lookupGetter__"; "__lookupSetter__"; "isPrototypeOf"; "propertyIsEnumerable";
   "toString"; "valueOf"; "__proto__"; "toLocaleString"].

Definition inheritedName (k : string) : bool :=
  existsb (String.eqb k) objectPrototypeNames.

(** [headers[key] = value] on the plain object [{}], for a string [value]:
    the key [__proto__] reaches the setter of [Object.prototype], which
    ignores a string; any other key becomes or updates an own property. *)
Definition setHeader (headers : list (string * Value)) (line : string * string)
  : list (string * Value) :=
  if String.eqb (fst line) "__proto__" then headers
  else assign (fst line) (Str (snd line)) headers.

(** The loop [req.forEach((key, value) => { headers[key] = value; })] over
    the header lines the transport reports, in order. *)
Definition collectHeaders (lines : list (string * string)) : list (string * Value) :=
  fold_left setHeader lines [].

(** What the transport's request gives: the header lines, [getQuery()] and
    [getUrl()]. *)
Record RawRequest := {
  rawHeaders : list (string * string);
  rawQuery : string;
  rawUrl : string
}.

(** The value of the last line of [lines] with key [k]. *)
Fixpoint lastValue (k : string) (lines : list (string * string)) : option string :=
  match lines with
  | [] => None
  | (k', v) :: rest =>
      match lastValue k rest with
      | Some later => Some later
      | None => if String.eqb k k' then Some v else None
      end
  end.

Section RouteCallback.

Context {P : Platform}.

(** The [content-type-parser] package: not code of this repository. *)
Variable contentTypeParser : Value -> option ContentType.

(** The [headers] object of the callback. *)
Definition headersOf (req : RawRequest) : Value :=
  Obj Plain (collectHeaders (rawHeaders req)).

(** [contentTypeParser(headers['content-type'])] *)
Definition contentTypeOf (req : RawRequest) : option ContentType :=
  contentTypeParser (optGet (headersOf req) "content-type").

(** The [request] object, without its [body] accessor. *)
Definition request (req : RawRequest) : Request :=
  {| query := parseQueryString (rawQuery req);
     headers := headersOf req;
     url := rawUrl req |}.

(** [request.body()] of the fuller variant, on the chunks the transport
    delivers. *)
Definition requestBody (req : RawRequest) (chunks : list (Buffer * bool)) : Promise :=
  body (contentTypeOf req) chunks.

(** [dispatch] from an exchange already under way. *)
Definition resume (v : Variant) (x : Exchange) (h : HandlerRun) : Exchange :=
  let x := fold_left (occur v) (before h) x in
  let x :=
    match outcome h with
    | Some o => exec (settle v o) x
    | None => x
    end in
  fold_left (occur v) (after h) x.

End RouteCallback.

(** A stand-in for [content-type-parser] on concrete inputs: [type/subtype]
    up to the first [;], and [null] for anything that is not a string with a
    slash. *)
Fixpoint upTo (stop : ascii) (s : string) : string * option string :=
  match s with
  | EmptyString => (EmptyString, None)
  | String c rest =>
      if Ascii.eqb c stop then (EmptyString, Some rest)
      else let '(a, b) := upTo stop rest in (String c a, b)
  end.

Definition simpleContentTypeParser (v : Value) : option ContentType :=
  match v with
  | Str s =>
      match upTo "/" (fst (upTo ";" s)) with
      | (t, Some sub) => Some {| type := t; subtype := sub |}
      | (_, None) => None
      end
  | _ => None
  end.

(* =================================================================== *)
(** ** Listening and closing *)
(* =================================================================== *)

(** A listen socket of the transport. *)
Definition Socket := nat.

(** The calls [listen] and [close] make on the transport. *)
Inductive TransportCall :=
| Listen (host : string) (port : Z)
| CloseSocket (socket : Socket).

(** The instance with its private [#socket] (unset at first, and [false]
    after a failed listen: [None] both) and the calls made so far. *)
Record Listener := {
  instance : App;
  socket : option Socket;
  calls : list TransportCall
}.

Definition newListener (options : Options) : Listener :=
  {| instance := newApp options; socket := None; calls := [] |}.

Section Listening.

(** [uWS.us_socket_local_port], of the transport. *)
Variable us_socket_local_port : option Socket -> Z.

(** [listen(done)]: the request to the transport; its callback,
    [listening], runs when the transport answers. *)
Definition listen (l : Listener) : Listener :=
  {| instance := instance l; socket := socket l;
     calls := (calls l ++ [Listen (host (instance l)) (port (instance l))])%list |}.

(** The callback [socket => ...] given to the transport, on its answer
    [bound]; with the instance comes the argument given to [done]. *)
Definition listening (bound : option Socket) (l : Listener) : Listener * (string * Z) :=
  let app := instance l in
  let port' := if Z.eqb (port app) 0 then us_socket_local_port bound else port app in
  ({| instance := {| host := host app; port := port'; routes := routes app |};
      socket := bound;
      calls := calls l |},
   (host app, port')).

(** [close()] *)
Definition close (l : Listener) : Listener :=
  match socket l with
  | Some s =>
      {| instance := instance l; socket := socket l;
         calls := (calls l ++ [CloseSocket s])%list |}
  | None => l
  end.

(** What happens to the instance, in order: calls of [listen] and [close],
    and answers of the transport to a listen request. *)
Inductive Call := CallListen | Answer (bound : option Socket) | CallClose.

Definition perform_call (l : Listener) (c : Call) : Listener :=
  match c with
  | CallListen => listen l
  | Answer bound => fst (listening bound l)
  | CallClose => close l
  end.

End Listening.

(* =================================================================== *)
(** ** More vocabulary *)
(* =================================================================== *)

(** The shapes a response can have on the wire: nothing; a status line and
    a body, where the status is [200 OK] or the body repeats the status
    text; [200 OK], the JSON header and a body; and, in the minimal variant
    only, the latter cut before its body. *)
Definition jsonHeader (k val : string) : bool :=
  (String.eqb k "Content-Type" && String.eqb val "application/json")%bool.

Definition responseShape (v : Variant) (w : list WireOp) : bool :=
  match w with
  | [] => true
  | [WriteStatus s; End b] =>
      (String.eqb s "200 OK" ||
       match b with Str t => String.eqb s t | _ => false end)%bool
  | [WriteStatus s; WriteHeader k val; End _] =>
      (String.eqb s "200 OK" && jsonHeader k val)%bool
  | [WriteStatus s; WriteHeader k val] =>
      (String.eqb s "200 OK" && jsonHeader k val &&
       match v with Minimal => true | Fuller => false end)%bool
  | _ => false
  end.

(** A step that writes one response of a legal shape. *)
Definition answered (v : Variant) (x x' : Exchange) : Prop :=
  blocked x = false /\ done x' = true /\
  exists ops, wire x' = (wire x ++ ops)%list /\ ops <> [] /\
              responseShape v ops = true /\
              (v = Fuller -> ends ops = 1%nat).

(** The invariant behind the shapes. *)
Definition shapeInvariant (v : Variant) (x : Exchange) : Prop :=
  (done x = false -> wire x = []) /\
  responseShape v (wire x) = true /\
  (v = Fuller -> done x = true -> ends (wire x) = 1%nat).

(** The content types [parse] has a [return] for: the four subtypes below
    under [text], and the last two under [application]. *)
Definition decodes (ct : ContentType) : bool :=
  let sub := subtype ct in
  ((String.eqb (type ct) "text" &&
    (String.eqb sub "plain" || String.eqb sub "html" ||
     String.eqb sub "json" || String.eqb sub "x-www-form-urlencoded")) ||
   (String.eqb (type ct) "application" &&
    (String.eqb sub "json" || String.eqb sub "x-www-form-urlencoded")))%bool.

(** The error of the repository's test: a message and a numeric status. *)
Definition customError (status : Z) (message : string) : Value :=
  Obj ErrorClass [("message", Str message); ("status", Num (Int status))].

(** A local-port function and a listener, for concrete runs. *)
Definition samplePort (bound : option Socket) : Z :=
  match bound with Some s => 9000 + Z.of_nat s | None => -1 end.

Definition sampleCalls : list Call := [CallListen; Answer (Some 7%nat); CallClose].

Definition plainRequest : RawRequest :=
  {| rawHeaders := [("host", "localhost"); ("accept", "*/*")];
     rawQuery := "a=1"; rawUrl := "/" |}.

(** Safe integers: the integers a JavaScript number holds exactly and prints
    digit for digit. *)
Definition safeInteger (n : Z) : bool := Z.ltb (Z.abs n) (2 ^ 53).

(* =================================================================== *)
(** ** One request through several registrations *)
(* =================================================================== *)

(** Fresh flags on a connection that already carries [w]. *)
Definition freshOn (w : list WireOp) : Exchange :=
  {| aborted := false; done := false; calledNext := false; calledSend := false;
     wire := w; yield := false |}.

Section Routing.

Context {P : Platform}.

(** Modelled from the spec: the routing of the transport engine, which is
    not part of the source. A request is given to the route callbacks that
    match it, in registration order: each runs on flags of its own and on
    the same connection, and the request goes on to the next one when the
    callback has yielded it with [req.setYield(true)] (specification 4.4,
    step 3, and the test [using next()]). The callbacks are run one after
    the other. *)
Fixpoint serve (v : Variant) (hs : list HandlerRun) (w : list WireOp) : list WireOp :=
  match hs with
  | [] => w
  | h :: rest =>
      let x := resume v (freshOn w) h in
      if yield x then serve v rest (wire x) else wire x
  end.

(** No [next()] in [es] is called on a response already marked done. *)
Fixpoint nextOnlyBeforeDone (v : Variant) (es : list Event) (x : Exchange) : bool :=
  match es with
  | [] => true
  | e :: rest =>
      (match e with
       | CallNext => negb (done x)
       | _ => true
       end && nextOnlyBeforeDone v rest (occur v x e))%bool
  end.

(** A handler run that never calls [next()] once its response is marked
    done. *)
Definition polite (v : Variant) (h : HandlerRun) : bool :=
  let x := fold_left (occur v) (before h) fresh in
  let x' :=
    match outcome h with
    | Some o => exec (settle v o) x
    | None => x
    end in
  (nextOnlyBeforeDone v (before h) fresh && nextOnlyBeforeDone v (after h) x')%bool.

End Routing.

(** Where a callback stands with [next()]: not called, or called on a
    response that was not done. *)
Definition routingInvariant (x : Exchange) : Prop :=
  guardInvariant x /\
  ((calledNext x = false /\ yield x = false) \/
   (calledNext x = true /\ done x = false)).

(** A handler that sends a string and then calls [next()], one that only
    calls [next()], and one that returns a string. *)
Definition sendThenNext : HandlerRun :=
  {| before := [CallSend (Str "a"); CallNext]; outcome := Some (Returns Undefined);
     after := [] |}.

Definition onlyNext : HandlerRun :=
  {| before := [CallNext]; outcome := Some (Returns Undefined); after := [] |}.

Definition returnsB : HandlerRun := settling (Returns (Str "b")).

(* =================================================================== *)
(** ** The tests of the repository, replayed *)
(* =================================================================== *)

(** [test/http.ts]: a handler returning ['Hello World!'] answers 200 with
    that body. *)
Example test_returning_a_string :
  wire (dispatch (P := RefPlatform) Fuller (settling (Returns (Str "Hello World!"))))
  = [WriteStatus "200 OK"; End (Str "Hello World!")].
Proof. reflexivity. Qed.

(** [test/http.ts]: [throw new Error('TEST_ERROR')] answers [500 TEST_ERROR]. *)
Example test_error_thrown :
  wire (dispatch (P := RefPlatform) Fuller (settling (Throws (newError (Some "TEST_ERROR")))))
  = [WriteStatus "500 TEST_ERROR"; End (Str "500 TEST_ERROR")].
Proof. reflexivity. Qed.

(** [test/http.ts]: [throw new Error()] answers [500 Internal Server Error]. *)
Example test_error_thrown_with_no_message :
  wire (dispatch (P := RefPlatform) Fuller (settling (Throws (newError None))))
  = [WriteStatus "500 Internal Server Error"; End (Str "500 Internal Server Error")].
Proof. reflexivity. Qed.

(** [test/http.ts]: an error with [status = 401] answers [401 TEST_ERROR]. *)
Example test_error_thrown_with_custom_status_code :
  wire (dispatch (P := RefPlatform) Fuller
          (settling (Throws (Obj ErrorClass [("message", Str "TEST_ERROR");
                                             ("status", Num (Int 401))]))))
  = [WriteStatus "401 TEST_ERROR"; End (Str "401 TEST_ERROR")].
Proof. reflexivity. Qed.

(** [test/http.ts]: a returned error is rendered like a thrown one. *)
Example test_error_returned :
  wire (dispatch (P := RefPlatform) Fuller (settling (Returns (newError (Some "TEST_ERROR")))))
  = [WriteStatus "500 TEST_ERROR"; End (Str "500 TEST_ERROR")].
Proof. reflexivity. Qed.

(** [test/http.ts]: [res.send('Hello World!')] answers 200 with that body. *)
Example test_using_res_send :
  wire (dispatch (P := RefPlatform) Fuller (sending (Str "Hello World!")))
  = [WriteStatus "200 OK"; End (Str "Hello World!")].
Proof. reflexivity. Qed.

(** [test/http.ts]: a returned object is answered as JSON. *)
Example test_returning_an_object :
  wire (dispatch (P := RefPlatform) Fuller
          (settling (Returns (Obj Plain [("test", Str "Hello");
                                         ("anotherTest", Str "World!")]))))
  = [WriteStatus "200 OK"; WriteHeader "Content-Type" "application/json";
     End (Str ("{" ++ dquote ++ "test" ++ dquote ++ ":" ++ dquote ++ "Hello" ++ dquote ++ ","
               ++ dquote ++ "anotherTest" ++ dquote ++ ":" ++ dquote ++ "World!" ++ dquote
               ++ "}"))].
Proof. reflexivity. Qed.

(** [test/http.ts], body parsing echo: a text body comes back as it was
    posted. *)
Example test_body_parsing_echo :
  body (P := RefPlatform) (Some {| type := "text"; subtype := "plain" |})
       [(bytes sampleJson, true)]
  = Fulfilled (Str sampleJson).
Proof. reflexivity. Qed.

(** [test/http.ts]: a handler that calls [next()] writes nothing and yields. *)
Example test_using_next :
  let x := dispatch (P := RefPlatform) Fuller
             {| before := [CallNext]; outcome := Some (Returns Undefined); after := [] |} in
  wire x = [] /\ yield x = true.
Proof. split; reflexivity. Qed.

(* =================================================================== *)
(** ** Properties *)
(* =================================================================== *)

Section Properties.

Context {P : Platform}.

(** *** The guards *)

Lemma guarded_blocked (m : M unit) (x : Exchange) :
  blocked x = true -> guarded m x = (Normal tt, x).
Proof.
  unfold blocked, guarded, bind, read, ret.
  destruct (aborted x), (done x), (calledNext x); simpl; intros H;
    reflexivity || discriminate H.
Qed.

Lemma guarded_clear (m : M unit) (x : Exchange) :
  blocked x = false -> guarded m x = m x.
Proof.
  unfold blocked, guarded, bind, read, ret.
  destruct (aborted x), (done x), (calledNext x); simpl; intros H;
    reflexivity || discriminate H.
Qed.

Lemma send_fuller_blocked (body : Value) (x : Exchange) :
  blocked x = true -> send_fuller body x = (Normal tt, x).
Proof. intros H. unfold send_fuller. now apply guarded_blocked. Qed.

Lemma send_minimal_blocked (body : Value) (x : Exchange) :
  blocked x = true -> send_minimal body x = (Normal tt, x).
Proof. intros H. unfold send_minimal. now apply guarded_blocked. Qed.

Lemma send_blocked (v : Variant) (body : Value) (x : Exchange) :
  blocked x = true -> send v body x = (Normal tt, x).
Proof.
  intros H. destruct v; simpl;
    [now apply send_fuller_blocked | now apply send_minimal_blocked].
Qed.

Lemma onError_fuller_blocked (error : Value) (x : Exchange) :
  blocked x = true -> onError_fuller error x = (Normal tt, x).
Proof. intros H. unfold onError_fuller. now apply guarded_blocked. Qed.

Lemma onError_minimal_blocked (error : Value) (x : Exchange) :
  blocked x = true -> onError_minimal error x = (Normal tt, x).
Proof. intros H. unfold onError_minimal. now apply guarded_blocked. Qed.

(** With a guard flag set, settling the handler's promise changes nothing. *)
Lemma settle_blocked (v : Variant) (o : Outcome) (x : Exchange) :
  blocked x = true -> exec (settle v o) x = x.
Proof.
  intros H.
  destruct v, o as [b | e]; simpl;
    unfold exec, settle_fuller, settle_minimal, tryCatch, bind, await, read, ret, throw;
    simpl.
  - destruct (calledSend x); simpl; [reflexivity|].
    destruct (truthy b); simpl.
    + destruct (instanceofError b); simpl.
      * now rewrite onError_fuller_blocked.
      * now rewrite send_fuller_blocked.
    + now rewrite onError_fuller_blocked.
  - now rewrite onError_fuller_blocked.
  - destruct (calledSend x); simpl; [reflexivity|].
    destruct (truthy b); simpl; [|reflexivity].
    destruct (instanceofError b); simpl.
    + now rewrite onError_minimal_blocked.
    + now rewrite send_minimal_blocked.
  - now rewrite onError_minimal_blocked.
Qed.

(** *** What [response.send] and the [catch] blocks do when no flag stops
    them *)

Lemma send_fuller_clear (body : Value) (x : Exchange) :
  blocked x = false ->
  send_fuller body x =
  if (String.eqb (typeof body) "string" || String.eqb (typeof body) "number")%bool
  then (Normal tt, replied "200 OK" body (set_calledSend x))
  else
    match JSON_stringify body with
    | Normal json =>
        (Normal tt,
         emit (End json)
           (emit (WriteHeader "Content-Type" "application/json")
              (emit (WriteStatus "200 OK") (set_done (set_calledSend x)))))
    | Throw _ => (Normal tt, set_calledSend x)
    end.
Proof.
  intros H. unfold send_fuller. rewrite guarded_clear by assumption.
  unfold bind, update, cork, writeStatus, writeHeader, end_, lift, ret, isJSON, replied.
  simpl.
  destruct (String.eqb (typeof body) "string" || String.eqb (typeof body) "number")%bool;
    [reflexivity|].
  destruct (JSON_stringify body); reflexivity.
Qed.

Lemma send_minimal_clear (body : Value) (x : Exchange) :
  blocked x = false ->
  send_minimal body x =
  if String.eqb (typeof body) "string"
  then (Normal tt, replied "200 OK" body (set_calledSend x))
  else if String.eqb (typeof body) "object" then
    match JSON_stringify body with
    | Normal json =>
        (Normal tt,
         emit (End json)
           (emit (WriteHeader "Content-Type" "application/json")
              (emit (WriteStatus "200 OK") (set_done (set_calledSend x)))))
    | Throw e =>
        (Throw e,
         emit (WriteHeader "Content-Type" "application/json")
           (emit (WriteStatus "200 OK") (set_done (set_calledSend x))))
    end
  else (Normal tt, set_calledSend x).
Proof.
  intros H. unfold send_minimal. rewrite guarded_clear by assumption.
  unfold bind, update, cork, writeStatus, writeHeader, end_, lift, ret, replied.
  simpl.
  destruct (String.eqb (typeof body) "string"); [reflexivity|].
  destruct (String.eqb (typeof body) "object"); [|reflexivity].
  destruct (JSON_stringify body); reflexivity.
Qed.

Lemma onError_fuller_clear (error : Value) (x : Exchange) :
  blocked x = false ->
  onError_fuller error x =
  (Normal tt, replied (errorText Fuller error) (Str (errorText Fuller error)) x).
Proof.
  intros H. unfold onError_fuller. rewrite guarded_clear by assumption.
  unfold errorText, replyGeneric, bind, update, cork, writeStatus, end_, replied.
  simpl. destruct (instanceofHTTPError error); reflexivity.
Qed.

Lemma onError_minimal_clear (error : Value) (x : Exchange) :
  blocked x = false ->
  onError_minimal error x =
  (Normal tt, replied (errorText Minimal error) (Str (errorText Minimal error)) x).
Proof.
  intros H. unfold onError_minimal. rewrite guarded_clear by assumption.
  unfold errorText, replyGeneric, bind, update, cork, writeStatus, end_, replied.
  reflexivity.
Qed.

(** *** Settling the handler's promise when no flag stops the writes *)

Lemma settle_fuller_clear (o : Outcome) (x : Exchange) :
  blocked x = false ->
  exec (settle_fuller o) x =
  match o with
  | Throws e => replied (errorText Fuller e) (Str (errorText Fuller e)) x
  | Returns b =>
      if calledSend x then x
      else if negb (truthy b) then replied "204 No Content" (Str "204 No Content") x
      else if instanceofError b then replied (errorText Fuller b) (Str (errorText Fuller b)) x
      else exec (send_fuller b) x
  end.
Proof.
  intros H.
  unfold exec, settle_fuller, tryCatch, bind, await, read, ret, throw.
  destruct o as [b | e]; simpl.
  - destruct (calledSend x); simpl; [reflexivity|].
    destruct (truthy b); simpl.
    + destruct (instanceofError b); simpl.
      * now rewrite onError_fuller_clear.
      * rewrite send_fuller_clear by assumption.
        destruct (String.eqb (typeof b) "string" || String.eqb (typeof b) "number")%bool;
          [reflexivity|].
        destruct (JSON_stringify b); reflexivity.
    + now rewrite onError_fuller_clear.
  - now rewrite onError_fuller_clear.
Qed.

Lemma settle_minimal_clear (o : Outcome) (x : Exchange) :
  blocked x = false ->
  exec (settle_minimal o) x =
  match o with
  | Throws e => replied (errorText Minimal e) (Str (errorText Minimal e)) x
  | Returns b =>
      if calledSend x then x
      else if negb (truthy b) then x
      else if instanceofError b then replied (errorText Minimal b) (Str (errorText Minimal b)) x
      else exec (send_minimal b) x
  end.
Proof.
  intros H.
  unfold exec, settle_minimal, tryCatch, bind, await, read, ret, throw.
  destruct o as [b | e]; simpl.
  - destruct (calledSend x); simpl; [reflexivity|].
    destruct (truthy b); simpl; [|reflexivity].
    destruct (instanceofError b); simpl.
    + now rewrite onError_minimal_clear.
    + rewrite send_minimal_clear by assumption.
      destruct (String.eqb (typeof b) "string"); [reflexivity|].
      destruct (String.eqb (typeof b) "object"); [|reflexivity].
      destruct (JSON_stringify b); [reflexivity|].
      rewrite onError_minimal_blocked; [reflexivity|].
      unfold blocked. simpl. now rewrite orb_true_r.
  - now rewrite onError_minimal_clear.
Qed.

(** *** Every step is quiet or is the one write *)

Lemma quiet_refl (x : Exchange) : quiet x x.
Proof. split; reflexivity. Qed.

Lemma replied_wrote (status : string) (body : Value) (x y : Exchange) :
  blocked x = false -> wire y = wire x ->
  wrote x (replied status body y).
Proof.
  intros B W. split; [assumption|]. split; [reflexivity|].
  exists [WriteStatus status; End body]. simpl. rewrite W, <- app_assoc.
  repeat split; [unfold ends | unfold statuses]; simpl; lia.
Qed.

Lemma json_wrote (json : Value) (x y : Exchange) :
  blocked x = false -> wire y = wire x ->
  wrote x (emit (End json)
             (emit (WriteHeader "Content-Type" "application/json")
                (emit (WriteStatus "200 OK") (set_done y)))).
Proof.
  intros B W. split; [assumption|]. split; [reflexivity|].
  exists [WriteStatus "200 OK"; WriteHeader "Content-Type" "application/json"; End json].
  simpl. rewrite W, <- !app_assoc.
  repeat split; [unfold ends | unfold statuses]; simpl; lia.
Qed.

Lemma headers_wrote (x y : Exchange) :
  blocked x = false -> wire y = wire x ->
  wrote x (emit (WriteHeader "Content-Type" "application/json")
             (emit (WriteStatus "200 OK") (set_done y))).
Proof.
  intros B W. split; [assumption|]. split; [reflexivity|].
  exists [WriteStatus "200 OK"; WriteHeader "Content-Type" "application/json"].
  simpl. rewrite W, <- !app_assoc.
  repeat split; [unfold ends | unfold statuses]; simpl; lia.
Qed.

Lemma send_effect (v : Variant) (body : Value) (x : Exchange) :
  quiet x (exec (send v body) x) \/ wrote x (exec (send v body) x).
Proof.
  unfold exec. destruct (blocked x) eqn:B.
  - left. rewrite send_blocked by assumption. apply quiet_refl.
  - destruct v; simpl.
    + rewrite send_fuller_clear by assumption.
      destruct (String.eqb (typeof body) "string" || String.eqb (typeof body) "number")%bool.
      * right. now apply replied_wrote.
      * destruct (JSON_stringify body); simpl.
        -- right. now apply json_wrote.
        -- left. split; reflexivity.
    + rewrite send_minimal_clear by assumption.
      destruct (String.eqb (typeof body) "string").
      * right. now apply replied_wrote.
      * destruct (String.eqb (typeof body) "object").
        -- destruct (JSON_stringify body); simpl; right;
             [now apply json_wrote | now apply headers_wrote].
        -- left. split; reflexivity.
Qed.

Lemma settle_effect (v : Variant) (o : Outcome) (x : Exchange) :
  quiet x (exec (settle v o) x) \/ wrote x (exec (settle v o) x).
Proof.
  destruct (blocked x) eqn:B.
  - left. rewrite settle_blocked by assumption. apply quiet_refl.
  - destruct v; simpl.
    + rewrite settle_fuller_clear by assumption.
      destruct o as [b | e]; [|right; now apply replied_wrote].
      destruct (calledSend x); [left; apply quiet_refl|].
      destruct (negb (truthy b)); [right; now apply replied_wrote|].
      destruct (instanceofError b); [right; now apply replied_wrote|].
      apply (send_effect Fuller).
    + rewrite settle_minimal_clear by assumption.
      destruct o as [b | e]; [|right; now apply replied_wrote].
      destruct (calledSend x); [left; apply quiet_refl|].
      destruct (negb (truthy b)); [left; apply quiet_refl|].
      destruct (instanceofError b); [right; now apply replied_wrote|].
      apply (send_effect Minimal).
Qed.

Lemma occur_effect (v : Variant) (e : Event) (x : Exchange) :
  quiet x (occur v x e) \/ wrote x (occur v x e).
Proof.
  destruct e; simpl.
  - apply send_effect.
  - left. split; reflexivity.
  - left. split; reflexivity.
Qed.

(** *** The invariant *)

Lemma guardInvariant_fresh : guardInvariant fresh.
Proof. repeat split; [unfold ends | unfold statuses]; simpl; lia. Qed.

Lemma guardInvariant_step (x x' : Exchange) :
  guardInvariant x -> quiet x x' \/ wrote x x' -> guardInvariant x'.
Proof.
  intros (I0 & I1 & I2) [[W D] | (B & D & ops & W & E & S)].
  - unfold guardInvariant. rewrite W, D. auto.
  - assert (wire x = []) as N.
    { apply I0. unfold blocked in B.
      destruct (done x); [|reflexivity].
      now rewrite orb_true_r in B. }
    unfold guardInvariant. rewrite W, N, D. simpl.
    repeat split; [discriminate | assumption | assumption].
Qed.

Lemma guardInvariant_events (v : Variant) (es : list Event) (x : Exchange) :
  guardInvariant x -> guardInvariant (fold_left (occur v) es x).
Proof.
  revert x. induction es as [|e es IH]; intros x I; simpl; [assumption|].
  apply IH. eapply guardInvariant_step; [eassumption | apply occur_effect].
Qed.

Lemma guardInvariant_dispatch (v : Variant) (h : HandlerRun) :
  guardInvariant (dispatch v h).
Proof.
  unfold dispatch. apply guardInvariant_events.
  destruct (outcome h) as [o|].
  - eapply guardInvariant_step; [|apply settle_effect].
    apply guardInvariant_events, guardInvariant_fresh.
  - apply guardInvariant_events, guardInvariant_fresh.
Qed.

(** *** Explicit send *)

Lemma blocked_done (x : Exchange) : done x = true -> blocked x = true.
Proof. intros D. unfold blocked. rewrite D. now rewrite orb_true_r. Qed.

(** C7. Idempotence of explicit send: in either variant, on any exchange
    and for any value, calling [response.send(v)] twice leaves the exchange
    (the flags and what was written) as calling it once does. *)
Theorem send_idempotent (v : Variant) (body : Value) (x : Exchange) :
  exec (send v body) (exec (send v body) x) = exec (send v body) x.
Proof.
  unfold exec. destruct (blocked x) eqn:B.
  - rewrite (send_blocked v body x B). simpl. now rewrite (send_blocked v body x B).
  - destruct v; simpl.
    + rewrite (send_fuller_clear body x) by assumption.
      destruct (String.eqb (typeof body) "string" || String.eqb (typeof body) "number")%bool
        eqn:T.
      * simpl. now rewrite send_fuller_blocked by now apply blocked_done.
      * destruct (JSON_stringify body) eqn:J; simpl.
        -- now rewrite send_fuller_blocked by now apply blocked_done.
        -- rewrite send_fuller_clear by assumption. now rewrite T, J.
    + rewrite (send_minimal_clear body x) by assumption.
      destruct (String.eqb (typeof body) "string") eqn:T.
      * simpl. now rewrite send_minimal_blocked by now apply blocked_done.
      * destruct (String.eqb (typeof body) "object") eqn:O.
        -- destruct (JSON_stringify body); simpl;
             now rewrite send_minimal_blocked by now apply blocked_done.
        -- simpl. rewrite send_minimal_clear by assumption. now rewrite T, O.
Qed.

(** *** Error replies *)

(** C5. When the handler throws an [HTTPError] with code [c] and message
    [m] and no guard flag is set, the fuller variant marks the response done
    and writes the text [<c> <m>] as the status line and as the body. *)
Theorem http_error_rendering (x : Exchange) (c : Number) (m : string) :
  blocked x = false ->
  let text := Number_toString c ++ " " ++ m in
  let x' := exec (settle Fuller (Throws (newHTTPError c (Some m)))) x in
  wire x' = (wire x ++ [WriteStatus text; End (Str text)])%list /\
  done x' = true.
Proof.
  intros B text x'. subst x'. simpl.
  rewrite settle_fuller_clear by assumption.
  unfold replied. simpl. rewrite <- app_assoc. split; reflexivity.
Qed.

Lemma append_empty_r (s : string) : s ++ EmptyString = s.
Proof. induction s as [|c s IH]; simpl; [reflexivity | now rewrite IH]. Qed.

Lemma genericMessage_spec (useCode : bool) (error : Value) :
  genericMessage
    (if useCode
     then nullish (nullish (optGet error "status") (optGet error "code")) (Str "500")
     else nullish (optGet error "status") (Str "500"))
    error
  = specErrorText useCode error.
Proof.
  unfold genericMessage, specErrorText, specReason.
  assert ((if useCode
           then parseInt (nullish (nullish (optGet error "status") (optGet error "code")) (Str "500"))
           else parseInt (nullish (optGet error "status") (Str "500")))
          = specStatus useCode error) as S.
  { unfold specStatus.
    destruct useCode, (optGet error "status"), (optGet error "code"); reflexivity. }
  assert (forall status,
            Number_toString status ++
            (if truthy (or (or (optGet error "reason") (optGet error "message"))
                          (if Number_eqb status (Int 500)
                           then Str "Internal Server Error" else Str EmptyString))
             then " " ++ ToString (or (or (optGet error "reason") (optGet error "message"))
                                      (if Number_eqb status (Int 500)
                                       then Str "Internal Server Error" else Str EmptyString))
             else EmptyString)
            = if truthy (specReason error status)
              then Number_toString status ++ " " ++ ToString (specReason error status)
              else Number_toString status) as G.
  { intros status. unfold or, specReason.
    destruct (truthy (optGet error "reason")) eqn:R; simpl; rewrite ?R; [reflexivity|].
    destruct (truthy (optGet error "message")) eqn:Me; simpl; rewrite ?Me; [reflexivity|].
    destruct (Number_eqb status (Int 500)); simpl; [reflexivity|].
    apply append_empty_r. }
  unfold specReason in G |- *.
  destruct useCode; simpl in S |- *; rewrite S; apply G.
Qed.

Lemma errorText_spec (v : Variant) (error : Value) :
  instanceofHTTPError error = false ->
  errorText v error = specErrorText (readsCode v) error.
Proof.
  intros H. destruct v; simpl; rewrite ?H.
  - apply (genericMessage_spec true).
  - apply (genericMessage_spec false).
Qed.


(** *** Replies to returned and sent values *)

Lemma truthy_Str (s : string) : s <> EmptyString -> truthy (Str s) = true.
Proof.
  intros N. simpl. destruct (String.eqb_spec s EmptyString) as [E | _];
    [contradiction | reflexivity].
Qed.


(** C8. When the handler resolves with an empty value (one that is falsy:
    [undefined], [null], ...), has not called [response.send] and no guard
    flag is set, the fuller variant goes through its error path with an
    [HTTPError] 204 and writes [204 No Content] as status line and body,
    marking the response done; the minimal variant leaves the exchange
    untouched and writes nothing. *)
Theorem empty_return_behaviour (x : Exchange) (b : Value) :
  blocked x = false ->
  calledSend x = false ->
  truthy b = false ->
  exec (settle Fuller (Returns b)) x
  = exec (onError_fuller (newHTTPError (Int 204) (Some "No Content"))) x /\
  exec (settle Fuller (Returns b)) x
  = replied "204 No Content" (Str "204 No Content") x /\
  exec (settle Minimal (Returns b)) x = x.
Proof.
  intros B S T. simpl.
  rewrite settle_fuller_clear, settle_minimal_clear by assumption.
  rewrite S, T. simpl. repeat split.
  unfold exec. now rewrite onError_fuller_clear.
Qed.

Lemma settle_falsy (v : Variant) (x : Exchange) (b : Value) :
  truthy b = false ->
  exec (settle v (Returns b)) x = exec (settle v (Returns Undefined)) x.
Proof.
  intros T. destruct (blocked x) eqn:B.
  - now rewrite !settle_blocked.
  - destruct v; simpl;
      [rewrite !settle_fuller_clear | rewrite !settle_minimal_clear]; try assumption;
      now rewrite T.
Qed.

(** C10. The emptiness test on the handler's resolved value is JavaScript
    falsiness: the empty string, the number 0, [false] and [null] are falsy,
    and a handler that returns a falsy value is treated exactly as one that
    returns [undefined], on every exchange and in both variants. Alone, such
    a handler gets [204 No Content] from the fuller variant and nothing from
    the minimal one, and settling on such a value never writes a [200 OK]
    status line. *)
Theorem falsy_return_is_empty (v : Variant) (x : Exchange) (b : Value) :
  truthy b = false ->
  Forall (fun f => truthy f = false)
         [Str EmptyString; Num (Int 0); Bool false; Null; Undefined] /\
  exec (settle v (Returns b)) x = exec (settle v (Returns Undefined)) x /\
  wire (dispatch Fuller (settling (Returns b)))
  = [WriteStatus "204 No Content"; End (Str "204 No Content")] /\
  wire (dispatch Minimal (settling (Returns b))) = [] /\
  (In (WriteStatus "200 OK") (wire (exec (settle v (Returns b)) x)) ->
   In (WriteStatus "200 OK") (wire x)).
Proof.
  intros T. split; [repeat constructor|].
  split; [now apply settle_falsy|].
  unfold dispatch, settling. simpl.
  rewrite settle_fuller_clear, settle_minimal_clear by reflexivity.
  simpl. rewrite T. simpl. repeat split.
  destruct (blocked x) eqn:B.
  - now rewrite settle_blocked.
  - destruct v; simpl;
      [rewrite settle_fuller_clear | rewrite settle_minimal_clear]; try assumption;
      rewrite T; simpl; destruct (calledSend x); try tauto.
    unfold replied. simpl. rewrite <- app_assoc. intros I.
    apply in_app_or in I. destruct I as [I | I]; [assumption|].
    simpl in I. destruct I as [I | [I | I]]; try discriminate I; contradiction.
Qed.

(** *** Registration *)

Lemma fuller_registration (m : Registration) :
  In m (registrations Fuller) ->
  exists method, forall p h app, m p h app = (register method p h app, This).
Proof.
  simpl. unfold FullerApp.registrations.
  intros I. repeat (destruct I as [<- | I]; [eexists; intros; reflexivity|]).
  destruct I.
Qed.

Lemma minimal_registration (m : Registration) :
  In m (registrations Minimal) ->
  exists method, forall p h app, m p h app = (register method p h app, NoValue).
Proof.
  simpl. unfold MinimalApp.registrations.
  intros I. repeat (destruct I as [<- | I]; [eexists; intros; reflexivity|]).
  destruct I.
Qed.

(** C9, amended. In the fuller variant each of the nine registration
    methods registers the route and returns the instance, so a further
    registration can be chained on its result; in the minimal variant each
    registers the route and returns nothing, so a chained call throws. *)
Theorem registration_chainable_in_fuller_only :
  Forall (fun m : Registration =>
            forall p h app,
              snd (m p h app) = This /\
              forall m' p' h', chain (m p h app) m' p' h' = Normal (m' p' h' (fst (m p h app))))
         (registrations Fuller) /\
  Forall (fun m : Registration =>
            forall p h app,
              snd (m p h app) = NoValue /\
              forall m' p' h', exists e, chain (m p h app) m' p' h' = Throw e)
         (registrations Minimal) /\
  length (registrations Fuller) = 9%nat /\ length (registrations Minimal) = 9%nat.
Proof.
  split; [|split; [|split; reflexivity]].
  - apply Forall_forall. intros m I p h app.
    destruct (fuller_registration m I) as [method E]. rewrite E. simpl.
    split; reflexivity.
  - apply Forall_forall. intros m I p h app.
    destruct (minimal_registration m I) as [method E]. rewrite E. simpl.
    split; [reflexivity|]. intros. eexists. reflexivity.
Qed.

(** *** The body decoder *)

(** [parse] does what the row [decisionOfCode] picks does. *)
Lemma parse_decision (contentType : option ContentType) (buffer : Buffer) :
  parse contentType buffer = perform (decisionOfCode contentType) contentType buffer.
Proof.
  destruct contentType as [[t sub]|]; [|reflexivity].
  unfold parse, switch_type, case_text, case_application, case_multipart,
    decisionOfCode, perform. simpl.
  destruct (String.eqb t "text").
  - destruct (String.eqb sub "plain"); [reflexivity|].
    destruct (String.eqb sub "html"); [reflexivity|]. simpl.
    destruct (String.eqb_spec sub "javascript") as [-> | _]; [reflexivity|].
    destruct (String.eqb sub "json");
      [destruct (JSON_parse (Buffer_toString buffer)); reflexivity|].
    destruct (String.eqb_spec sub "xml") as [-> | _]; [reflexivity|].
    destruct (String.eqb sub "x-www-form-urlencoded"); [reflexivity|].
    destruct (String.eqb sub "form-data"); reflexivity.
  - destruct (String.eqb t "application").
    + destruct (String.eqb_spec sub "javascript") as [-> | _]; [reflexivity|].
      destruct (String.eqb sub "json");
        [destruct (JSON_parse (Buffer_toString buffer)); reflexivity|].
      destruct (String.eqb_spec sub "xml") as [-> | _]; [reflexivity|].
      destruct (String.eqb sub "x-www-form-urlencoded"); [reflexivity|].
      destruct (String.eqb sub "form-data"); reflexivity.
    + destruct (String.eqb t "multipart"); [|reflexivity].
      destruct (String.eqb sub "form-data"); reflexivity.
Qed.

(** Outside [text/json] and [text/x-www-form-urlencoded] the code takes the
    row the decision table of the specification gives. *)
Lemma decisionOfCode_table (contentType : option ContentType) :
  match contentType with
  | Some ct =>
      (String.eqb (type ct) "text" &&
       (String.eqb (subtype ct) "json" || String.eqb (subtype ct) "x-www-form-urlencoded"))%bool
  | None => false
  end = false ->
  decisionOfCode contentType = decisionTable contentType.
Proof.
  destruct contentType as [[t sub]|]; [|reflexivity].
  unfold decisionOfCode, decisionTable. simpl.
  destruct (String.eqb_spec t "text") as [-> | _]; simpl.
  - destruct (String.eqb sub "plain"), (String.eqb sub "html"); simpl; try reflexivity.
    destruct (String.eqb sub "json"); simpl; [discriminate|].
    destruct (String.eqb sub "x-www-form-urlencoded"); simpl; [discriminate|reflexivity].
  - intros _. destruct (String.eqb t "application"); reflexivity.
Qed.

(** *** The body accessor *)

Lemma onData_more (contentType : option ContentType) (st : BodyReader)
      (chunk : Buffer * bool) :
  notLast chunk ->
  promise (onData contentType st chunk) = promise st /\
  contents (buffer (onData contentType st chunk))
  = (contents (buffer st) ++ fst chunk)%list.
Proof.
  destruct chunk as [curBuf isLast]. unfold notLast. simpl. intros ->.
  split; [reflexivity|]. simpl.
  destruct (buffer st); simpl; [reflexivity | apply app_nil_r].
Qed.

Lemma onData_gather (contentType : option ContentType) (chunks : list (Buffer * bool))
      (st : BodyReader) :
  Forall notLast chunks ->
  promise (fold_left (onData contentType) chunks st) = promise st /\
  contents (buffer (fold_left (onData contentType) chunks st))
  = (contents (buffer st) ++ gathered chunks)%list.
Proof.
  intros F. revert st.
  induction F as [|chunk chunks N F IH]; intros st; simpl.
  - split; [reflexivity | now rewrite app_nil_r].
  - destruct (onData_more contentType st chunk N) as [Pr Co].
    destruct (IH (onData contentType st chunk)) as [Pr' Co'].
    split; [congruence|].
    rewrite Co', Co. unfold gathered. simpl. now rewrite app_assoc.
Qed.

(** [body()] settles with what [parse] makes of all the bytes, once the
    last chunk is in. *)
Lemma body_last (contentType : option ContentType) (chunks : list (Buffer * bool))
      (last : Buffer) :
  Forall notLast chunks ->
  body contentType (chunks ++ [(last, true)])%list =
  match parse contentType (gathered chunks ++ last)%list with
  | Normal v => Fulfilled v
  | Throw e => Rejected e
  end.
Proof.
  intros F. unfold body. rewrite fold_left_app. simpl.
  destruct (onData_gather contentType chunks {| buffer := None; promise := Pending |} F)
    as [Pr Co].
  simpl in Pr, Co.
  set (st := fold_left (onData contentType) chunks {| buffer := None; promise := Pending |}) in *.
  assert (match buffer st with Some b => (b ++ last)%list | None => last end
          = (gathered chunks ++ last)%list) as E.
  { rewrite <- Co. destruct (buffer st); reflexivity. }
  rewrite E.
  destruct (parse contentType (gathered chunks ++ last)%list); simpl; now rewrite Pr.
Qed.

(** C3, amended. For a request classified [application/json] whose body
    bytes are not valid JSON, the decoder does not fail: it catches the
    syntax error and returns [undefined], and [body()] resolves with
    [undefined] once the last chunk is in; nothing is rejected. *)
Theorem invalid_json_body_resolves_undefined
        (chunks : list (Buffer * bool)) (last : Buffer) (e : Value) :
  Forall notLast chunks ->
  JSON_parse (Buffer_toString (gathered chunks ++ last)%list) = Throw e ->
  parse (Some applicationJson) (gathered chunks ++ last)%list = Normal Undefined /\
  body (Some applicationJson) (chunks ++ [(last, true)])%list = Fulfilled Undefined.
Proof.
  intros F J.
  assert (parse (Some applicationJson) (gathered chunks ++ last)%list = Normal Undefined) as Pa.
  { rewrite parse_decision. simpl. now rewrite J. }
  split; [exact Pa|].
  rewrite body_last by assumption. now rewrite Pa.
Qed.

End Properties.

(* =================================================================== *)
(** ** The properties on concrete inputs *)
(* =================================================================== *)

(** C2. The decision table gives [text/json] its last row, unsupported; the
    code, whose [case 'text':] falls through into [case 'application':],
    decodes it with the JSON rule instead: the body [{"a":1}] comes back
    parsed, and every [text/json] body is handled as [application/json]
    is. *)
Theorem text_json_falls_through_to_json :
  decisionTable (Some textJson) = Unsupported /\
  decisionOfCode (Some textJson) = AsJSON /\
  parse (P := RefPlatform) (Some textJson) (bytes sampleJson)
  = Normal (Obj Plain [("a", Num (Int 1))]) /\
  (forall (P : Platform) (buffer : Buffer),
      parse (Some textJson) buffer = parse (Some applicationJson) buffer).
Proof.
  repeat split. intros P buffer. now rewrite !parse_decision.
Qed.

(** The form rule is reached from [text] in the same way. *)
Example text_form_falls_through :
  parse (P := RefPlatform)
        (Some {| type := "text"; subtype := "x-www-form-urlencoded" |})
        (bytes "a=1&b=two")
  = Normal (Obj Plain [("a", Str "1"); ("b", Str "two")]).
Proof. reflexivity. Qed.

(** The rows of the table the code does follow. *)
Example unsupported_rows :
  parse (P := RefPlatform) (Some {| type := "application"; subtype := "xml" |}) (bytes "<a/>")
  = Throw (invalidContentType "application/xml") /\
  parse (P := RefPlatform) (Some {| type := "multipart"; subtype := "form-data" |}) (bytes "x")
  = Throw (invalidContentType "multipart/form-data") /\
  parse (P := RefPlatform) (Some {| type := "image"; subtype := "png" |}) (bytes "x")
  = Throw (invalidContentType "image/png") /\
  parse (P := RefPlatform) None (bytes "x") = Throw (invalidContentType "null") /\
  parse (P := RefPlatform) (Some {| type := "text"; subtype := "plain" |}) (bytes "hi")
  = Normal (Str "hi").
Proof. repeat split. Qed.

(** C3, as stated, fails: the one-chunk body [{] under [application/json]
    is not valid JSON, yet [parse] returns [undefined] and [body()] is
    fulfilled with [undefined], not rejected. *)
Lemma invalid_json_is_not_rejected :
  JSON_parse (Platform := RefPlatform) "{" = Throw Ref.syntaxError /\
  parse (P := RefPlatform) (Some applicationJson) (bytes "{") = Normal Undefined /\
  body (P := RefPlatform) (Some applicationJson) [(bytes "{", true)] = Fulfilled Undefined /\
  forall e, body (P := RefPlatform) (Some applicationJson) [(bytes "{", true)] <> Rejected e.
Proof. repeat split. intros e H. discriminate H. Qed.

Lemma invalid_json_body_resolves_undefined_witness :
  Forall notLast [(bytes "{", false)] /\
  JSON_parse (Platform := RefPlatform)
    (Buffer_toString (Platform := RefPlatform) (gathered [(bytes "{", false)] ++ bytes "x")%list)
  = Throw Ref.syntaxError /\
  parse (P := RefPlatform) (Some applicationJson)
        (gathered [(bytes "{", false)] ++ bytes "x")%list = Normal Undefined /\
  body (P := RefPlatform) (Some applicationJson)
       ([(bytes "{", false)] ++ [(bytes "x", true)])%list = Fulfilled Undefined.
Proof.
  assert (Forall notLast [(bytes "{", false)]) as F by (repeat constructor).
  assert (JSON_parse (Platform := RefPlatform)
            (Buffer_toString (Platform := RefPlatform)
               (gathered [(bytes "{", false)] ++ bytes "x")%list)
          = Throw Ref.syntaxError) as J by reflexivity.
  exact (conj F (conj J
           (invalid_json_body_resolves_undefined (P := RefPlatform)
              [(bytes "{", false)] (bytes "x") Ref.syntaxError F J))).
Defined.



Lemma http_error_rendering_witness :
  blocked fresh = false /\
  wire (exec (settle (P := RefPlatform) Fuller
                (Throws (newHTTPError (Int 404) (Some "Not Found")))) fresh)
  = [WriteStatus "404 Not Found"; End (Str "404 Not Found")] /\
  done (exec (settle (P := RefPlatform) Fuller
                (Throws (newHTTPError (Int 404) (Some "Not Found")))) fresh) = true.
Proof.
  assert (blocked fresh = false) as B by reflexivity.
  exact (conj B (http_error_rendering (P := RefPlatform) fresh (Int 404) "Not Found" B)).
Defined.



Lemma empty_return_behaviour_witness :
  blocked fresh = false /\ calledSend fresh = false /\ truthy Undefined = false /\
  exec (settle (P := RefPlatform) Fuller (Returns Undefined)) fresh
  = replied "204 No Content" (Str "204 No Content") fresh /\
  exec (settle (P := RefPlatform) Minimal (Returns Undefined)) fresh = fresh.
Proof.
  assert (blocked fresh = false) as B by reflexivity.
  assert (calledSend fresh = false) as S by reflexivity.
  assert (truthy Undefined = false) as T by reflexivity.
  exact (conj B (conj S (conj T
           (proj2 (empty_return_behaviour (P := RefPlatform) fresh Undefined B S T))))).
Defined.

Lemma falsy_return_is_empty_witness :
  truthy (Num (Int 0)) = false /\
  exec (settle (P := RefPlatform) Fuller (Returns (Num (Int 0)))) fresh
  = exec (settle (P := RefPlatform) Fuller (Returns Undefined)) fresh /\
  wire (dispatch (P := RefPlatform) Fuller (settling (Returns (Num (Int 0)))))
  = [WriteStatus "204 No Content"; End (Str "204 No Content")] /\
  wire (dispatch (P := RefPlatform) Minimal (settling (Returns (Num (Int 0))))) = [].
Proof.
  assert (truthy (Num (Int 0)) = false) as T by reflexivity.
  pose proof (falsy_return_is_empty (P := RefPlatform) Fuller fresh (Num (Int 0)) T)
    as (_ & E & W1 & W2 & _).
  exact (conj T (conj E (conj W1 W2))).
Defined.

(** C9, as stated, fails in the minimal variant: [get] returns nothing, and
    a registration chained on it throws. *)
Lemma minimal_get_returns_nothing :
  snd (MinimalApp.get "/" helloHandler emptyApp) = NoValue /\
  snd (MinimalApp.get "/" helloHandler emptyApp) <> This /\
  chain (MinimalApp.get "/" helloHandler emptyApp) MinimalApp.post "/" helloHandler
  = Throw (newError (Some "Cannot read properties of undefined")).
Proof. repeat split. intros H. discriminate H. Qed.

(** The chain of the README's style, in the fuller variant. *)
Example fuller_chain :
  option_map (fun r => map (fun route => (method route, path route)) (routes (fst r)))
    (match chain (FullerApp.get "/" helloHandler emptyApp) FullerApp.post "/p" helloHandler with
     | Normal r => Some r
     | Throw _ => None
     end)
  = Some [(GET, "/"); (POST, "/p")].
Proof. reflexivity. Qed.

(* =================================================================== *)
(** ** Further properties of the code *)
(* =================================================================== *)

Section MoreProperties.

Context {P : Platform}.

(** *** The decoder *)

(** X1. [parse] returns exactly for the content types it has a [return]
    for, whatever the bytes (a JSON syntax error included); for every other
    type and subtype it throws the error that names them, and for the null
    classification the error that names [null]. It throws nothing else. *)
Theorem parse_returns_or_names_the_type (ct : ContentType) (buffer : Buffer) :
  (if decodes ct
   then exists v, parse (Some ct) buffer = Normal v
   else parse (Some ct) buffer
        = Throw (invalidContentType (type ct ++ "/" ++ subtype ct))) /\
  parse None buffer = Throw (invalidContentType "null").
Proof.
  split; [|reflexivity].
  rewrite parse_decision. destruct ct as [t sub]. unfold decodes, decisionOfCode. simpl.
  destruct (String.eqb_spec t "text") as [-> | _]; simpl.
  - destruct (String.eqb sub "plain"); simpl; [eexists; reflexivity|].
    destruct (String.eqb sub "html"); simpl; [eexists; reflexivity|].
    destruct (String.eqb sub "json"); simpl.
    + destruct (JSON_parse (Buffer_toString buffer)); eexists; reflexivity.
    + destruct (String.eqb sub "x-www-form-urlencoded"); simpl;
        [eexists; reflexivity | reflexivity].
  - destruct (String.eqb t "application"); simpl; [|reflexivity].
    destruct (String.eqb sub "json"); simpl.
    + destruct (JSON_parse (Buffer_toString buffer)); eexists; reflexivity.
    + destruct (String.eqb sub "x-www-form-urlencoded"); simpl;
        [eexists; reflexivity | reflexivity].
Qed.

(** *** The body accessor *)

(** X2. Until the transport marks a chunk as the last one, the promise of
    [body()] stays pending: nothing is decoded from a partial body. *)
Theorem body_pending_until_last_chunk
        (contentType : option ContentType) (chunks : list (Buffer * bool)) :
  Forall notLast chunks -> body contentType chunks = Pending.
Proof.
  intros F. unfold body.
  now destruct (onData_gather contentType chunks {| buffer := None; promise := Pending |} F).
Qed.

(** X3. When the last chunk arrives, [body()] settles with what [parse]
    makes of all the bytes received, concatenated in arrival order:
    fulfilled with the value [parse] returns, rejected with the error it
    throws. *)
Theorem body_decodes_all_bytes_in_order
        (contentType : option ContentType) (chunks : list (Buffer * bool))
        (last : Buffer) :
  Forall notLast chunks ->
  body contentType (chunks ++ [(last, true)])%list =
  match parse contentType (gathered chunks ++ last)%list with
  | Normal v => Fulfilled v
  | Throw e => Rejected e
  end.
Proof. apply body_last. Qed.

Lemma onData_settled (contentType : option ContentType) (more : list (Buffer * bool))
      (st : BodyReader) :
  promise st <> Pending ->
  promise (fold_left (onData contentType) more st) = promise st.
Proof.
  revert st. induction more as [|[curBuf isLast] more IH]; intros st N;
    cbn [fold_left]; [reflexivity|].
  assert (promise (onData contentType st (curBuf, isLast)) = promise st) as E.
  { unfold onData. destruct isLast; [|reflexivity].
    destruct (parse contentType _); simpl; destruct (promise st) eqn:Pr; simpl;
      congruence. }
  rewrite IH; [exact E | now rewrite E].
Qed.

(** X4. The promise of [body()] settles once: whatever the transport
    delivers after the chunk it marked last, another last chunk included,
    the promise keeps the outcome of the first decoding. *)
Theorem body_settles_once
        (contentType : option ContentType) (chunks more : list (Buffer * bool))
        (last : Buffer) :
  Forall notLast chunks ->
  body contentType (chunks ++ (last, true) :: more)%list
  = body contentType (chunks ++ [(last, true)])%list.
Proof.
  intros F.
  change (chunks ++ (last, true) :: more)%list
    with (chunks ++ [(last, true)] ++ more)%list.
  rewrite app_assoc. unfold body at 1. rewrite fold_left_app.
  rewrite onData_settled; [reflexivity|].
  fold (body contentType (chunks ++ [(last, true)])%list).
  rewrite body_last by assumption.
  destruct (parse contentType _); discriminate.
Qed.

(** *** The request facade *)

Lemma lookup_assign (k k' : string) (v : Value) (props : list (string * Value)) :
  lookup k (assign k' v props) = if String.eqb k k' then Some v else lookup k props.
Proof.
  induction props as [|[k0 v0] props IH]; simpl.
  - destruct (String.eqb k k'); reflexivity.
  - destruct (String.eqb_spec k' k0) as [-> | N]; simpl.
    + destruct (String.eqb k k0); reflexivity.
    + destruct (String.eqb_spec k k0) as [-> | N'].
      * destruct (String.eqb_spec k0 k') as [E | _]; [congruence | reflexivity].
      * exact IH.
Qed.

Lemma lastValue_snoc (k : string) (lines : list (string * string)) (line : string * string) :
  lastValue k (lines ++ [line])
  = if String.eqb k (fst line) then Some (snd line) else lastValue k lines.
Proof.
  destruct line as [k' v]. simpl.
  induction lines as [|[k0 v0] lines IH]; simpl.
  - reflexivity.
  - rewrite IH. destruct (String.eqb k k'); [reflexivity|].
    reflexivity.
Qed.

Lemma collectHeaders_lookup (k : string) (lines : list (string * string)) :
  String.eqb k "__proto__" = false ->
  lookup k (collectHeaders lines) = option_map Str (lastValue k lines).
Proof.
  intros N. unfold collectHeaders.
  induction lines as [|line lines IH] using rev_ind; [reflexivity|].
  rewrite fold_left_app. cbn [fold_left]. rewrite lastValue_snoc. unfold setHeader at 1.
  destruct (String.eqb_spec (fst line) "__proto__") as [E | _].
  - rewrite E, N. exact IH.
  - rewrite lookup_assign, IH. destruct (String.eqb k (fst line)); reflexivity.
Qed.

Lemma inheritedName_proto (k : string) :
  inheritedName k = false -> String.eqb k "__proto__" = false.
Proof.
  unfold inheritedName, objectPrototypeNames. cbn [existsb]. intros H.
  destruct (String.eqb k "__proto__"); [|reflexivity].
  now rewrite !orb_true_r in H.
Qed.

(** X5. The [headers] object of the request is last-write-wins: a header
    name that [Object.prototype] does not define reads as the value of the
    last line the transport reported under that name, and as [undefined]
    when there is no such line. *)
Theorem headers_last_write_wins (req : RawRequest) (k : string) :
  inheritedName k = false ->
  optGet (headers (request req)) k
  = match lastValue k (rawHeaders req) with
    | Some v => Str v
    | None => Undefined
    end.
Proof.
  intros I. unfold request, headersOf, optGet. simpl.
  rewrite collectHeaders_lookup by now apply inheritedName_proto.
  destruct (lastValue k (rawHeaders req)); reflexivity.
Qed.

Lemma assign_keys (k : string) (v : Value) (props : list (string * Value)) :
  map fst (assign k v props)
  = if existsb (String.eqb k) (map fst props) then map fst props
    else (map fst props ++ [k])%list.
Proof.
  induction props as [|[k0 v0] props IH]; simpl; [reflexivity|].
  destruct (String.eqb k k0); simpl; [reflexivity|].
  rewrite IH. destruct (existsb (String.eqb k) (map fst props)); reflexivity.
Qed.

Lemma existsb_eqb_In (k : string) (keys : list string) :
  existsb (String.eqb k) keys = true <-> In k keys.
Proof.
  rewrite existsb_exists. split.
  - intros (y & I & E). apply String.eqb_eq in E. now subst.
  - intros I. exists k. split; [assumption | apply String.eqb_refl].
Qed.

Lemma setHeader_keys (headers : list (string * Value)) (line : string * string)
      (k : string) :
  In k (map fst (setHeader headers line)) <->
  In k (map fst headers) \/ (k = fst line /\ k <> "__proto__").
Proof.
  unfold setHeader. destruct (String.eqb_spec (fst line) "__proto__") as [E | N].
  - split; [auto|]. intros [I | [-> C]]; [assumption | contradiction].
  - rewrite assign_keys.
    destruct (existsb (String.eqb (fst line)) (map fst headers)) eqn:X.
    + apply existsb_eqb_In in X. split; [auto|].
      intros [I | [-> _]]; assumption.
    + rewrite in_app_iff. simpl. split.
      * intros [I | [<- | []]]; auto.
      * intros [I | [-> _]]; auto.
Qed.

Lemma setHeader_NoDup (headers : list (string * Value)) (line : string * string) :
  NoDup (map fst headers) -> NoDup (map fst (setHeader headers line)).
Proof.
  intros D. unfold setHeader. destruct (String.eqb (fst line) "__proto__"); [exact D|].
  rewrite assign_keys.
  destruct (existsb (String.eqb (fst line)) (map fst headers)) eqn:X; [exact D|].
  apply NoDup_app; [exact D | repeat constructor; intros [] |].
  intros a I [<- | []]. apply existsb_eqb_In in I. congruence.
Qed.

(** X6. The names the [headers] object holds are exactly the names the
    transport reported, [__proto__] left out, each held once however often
    it was reported. *)
Theorem headers_names_unique (lines : list (string * string)) :
  NoDup (map fst (collectHeaders lines)) /\
  forall k, In k (map fst (collectHeaders lines)) <->
            In k (map fst lines) /\ k <> "__proto__".
Proof.
  unfold collectHeaders.
  induction lines as [|line lines [D IH]] using rev_ind.
  - split; [constructor|]. simpl. tauto.
  - rewrite fold_left_app. cbn [fold_left]. split; [now apply setHeader_NoDup|].
    intros k. rewrite setHeader_keys, IH, map_app, in_app_iff. simpl.
    split.
    + intros [[I N] | [-> N]]; auto.
    + intros [[I | [<- | []]] N]; auto.
Qed.

(** X7. A request without a [content-type] line: with a parser that answers
    [null] when given [undefined], as [content-type-parser] does for
    anything but a string, [body()] is rejected with the error
    [Invalid content-type "null".] once the last chunk is in. *)
Theorem body_without_content_type_is_rejected
        (contentTypeParser : Value -> option ContentType)
        (req : RawRequest) (chunks : list (Buffer * bool)) (last : Buffer) :
  lastValue "content-type" (rawHeaders req) = None ->
  contentTypeParser Undefined = None ->
  Forall notLast chunks ->
  requestBody contentTypeParser req (chunks ++ [(last, true)])%list
  = Rejected (invalidContentType "null").
Proof.
  intros L N F. unfold requestBody, contentTypeOf, headersOf, optGet.
  rewrite collectHeaders_lookup by reflexivity. rewrite L. simpl. rewrite N.
  now rewrite body_last.
Qed.

(** *** Once a flag stops the writes *)

Lemma next_exec (x : Exchange) : exec next x = set_yield (set_calledNext x).
Proof. reflexivity. Qed.

Lemma occur_blocked (v : Variant) (e : Event) (x : Exchange) :
  blocked x = true ->
  blocked (occur v x e) = true /\ wire (occur v x e) = wire x /\
  done (occur v x e) = done x /\ calledSend (occur v x e) = calledSend x /\
  (yield x = true -> yield (occur v x e) = true).
Proof.
  intros B. destruct e; simpl.
  - unfold exec. rewrite send_blocked by assumption. simpl. auto.
  - rewrite next_exec. unfold blocked in *. simpl.
    rewrite orb_true_r. auto.
  - unfold blocked. simpl. auto.
Qed.

Lemma events_blocked (v : Variant) (es : list Event) (x : Exchange) :
  blocked x = true ->
  blocked (fold_left (occur v) es x) = true /\
  wire (fold_left (occur v) es x) = wire x /\
  done (fold_left (occur v) es x) = done x /\
  calledSend (fold_left (occur v) es x) = calledSend x /\
  (yield x = true -> yield (fold_left (occur v) es x) = true).
Proof.
  revert x. induction es as [|e es IH]; intros x B; cbn [fold_left]; [auto|].
  destruct (occur_blocked v e x B) as (B' & W & D & S & Y).
  destruct (IH _ B') as (B'' & W' & D' & S' & Y').
  repeat split; try congruence. auto.
Qed.

Lemma resume_blocked (v : Variant) (x : Exchange) (h : HandlerRun) :
  blocked x = true ->
  wire (resume v x h) = wire x /\ done (resume v x h) = done x /\
  calledSend (resume v x h) = calledSend x /\
  (yield x = true -> yield (resume v x h) = true).
Proof.
  intros B. unfold resume.
  destruct (events_blocked v (before h) x B) as (B1 & W1 & D1 & S1 & Y1).
  set (x1 := fold_left (occur v) (before h) x) in *.
  assert (match outcome h with Some o => exec (settle v o) x1 | None => x1 end = x1) as E.
  { destruct (outcome h); [now apply settle_blocked | reflexivity]. }
  rewrite E.
  destruct (events_blocked v (after h) x1 B1) as (_ & W2 & D2 & S2 & Y2).
  repeat split; try congruence. auto.
Qed.

(** X8. Once an exchange is aborted, done or handed on with [next()],
    nothing the handler does afterwards is written: whatever calls to
    [response.send] and [next] follow, however the handler's promise settles
    and whatever comes later, the wire, the [done] flag and the [calledSend]
    flag stay as they were. *)
Theorem blocked_exchange_stays_silent (v : Variant) (x : Exchange) (h : HandlerRun) :
  blocked x = true ->
  wire (resume v x h) = wire x /\
  done (resume v x h) = done x /\
  calledSend (resume v x h) = calledSend x.
Proof.
  intros B. destruct (resume_blocked v x h B) as (W & D & S & _). auto.
Qed.

(** X9. The first [response.send] of a string decides the response: if the
    handler starts by sending a string, the wire holds [200 OK] and that
    string, whatever the handler sends, returns or throws afterwards, in
    both variants. *)
Theorem first_string_sent_stands
        (v : Variant) (s : string) (es : list Event) (o : option Outcome)
        (es' : list Event) :
  wire (dispatch v {| before := CallSend (Str s) :: es; outcome := o; after := es' |})
  = [WriteStatus "200 OK"; End (Str s)].
Proof.
  change (dispatch v {| before := CallSend (Str s) :: es; outcome := o; after := es' |})
    with (resume v (exec (send v (Str s)) fresh)
                 {| before := es; outcome := o; after := es' |}).
  assert (exec (send v (Str s)) fresh = replied "200 OK" (Str s) (set_calledSend fresh)) as E.
  { destruct v; reflexivity. }
  rewrite E.
  now destruct (resume_blocked v (replied "200 OK" (Str s) (set_calledSend fresh))
                  {| before := es; outcome := o; after := es' |} eq_refl) as (-> & _).
Qed.

(** X10. If the transport reports the abort before the handler did
    anything, or if the handler starts by calling [next()], this exchange
    never writes anything, whatever the handler does or returns afterwards;
    after [next()] the request stays yielded to the next route and the
    response is not marked done. *)
Theorem silent_after_abort_or_next
        (v : Variant) (es : list Event) (o : option Outcome) (es' : list Event) :
  wire (dispatch v {| before := Abort :: es; outcome := o; after := es' |}) = [] /\
  wire (dispatch v {| before := CallNext :: es; outcome := o; after := es' |}) = [] /\
  yield (dispatch v {| before := CallNext :: es; outcome := o; after := es' |}) = true /\
  done (dispatch v {| before := CallNext :: es; outcome := o; after := es' |}) = false.
Proof.
  change (dispatch v {| before := Abort :: es; outcome := o; after := es' |})
    with (resume v (set_aborted fresh) {| before := es; outcome := o; after := es' |}).
  change (dispatch v {| before := CallNext :: es; outcome := o; after := es' |})
    with (resume v (set_yield (set_calledNext fresh))
                 {| before := es; outcome := o; after := es' |}).
  destruct (resume_blocked v (set_aborted fresh)
              {| before := es; outcome := o; after := es' |} eq_refl) as (W & _).
  destruct (resume_blocked v (set_yield (set_calledNext fresh))
              {| before := es; outcome := o; after := es' |} eq_refl) as (W' & D' & _ & Y').
  rewrite W, W', D'. repeat split. now apply Y'.
Qed.

(** *** What a response looks like *)

Lemma replied_ok_answered (v : Variant) (body : Value) (x y : Exchange) :
  blocked x = false -> wire y = wire x ->
  answered v x (replied "200 OK" body y).
Proof.
  intros B W. split; [assumption|]. split; [reflexivity|].
  exists [WriteStatus "200 OK"; End body]. simpl. rewrite W, <- app_assoc.
  repeat split; discriminate.
Qed.

Lemma replied_error_answered (v : Variant) (text : string) (x y : Exchange) :
  blocked x = false -> wire y = wire x ->
  answered v x (replied text (Str text) y).
Proof.
  intros B W. split; [assumption|]. split; [reflexivity|].
  exists [WriteStatus text; End (Str text)]. simpl. rewrite W, <- app_assoc.
  rewrite String.eqb_refl, orb_true_r. repeat split; discriminate.
Qed.

Lemma json_answered (v : Variant) (json : Value) (x y : Exchange) :
  blocked x = false -> wire y = wire x ->
  answered v x (emit (End json)
                  (emit (WriteHeader "Content-Type" "application/json")
                     (emit (WriteStatus "200 OK") (set_done y)))).
Proof.
  intros B W. split; [assumption|]. split; [reflexivity|].
  exists [WriteStatus "200 OK"; WriteHeader "Content-Type" "application/json"; End json].
  simpl. rewrite W, <- !app_assoc. repeat split; discriminate.
Qed.

Lemma headers_answered (x y : Exchange) :
  blocked x = false -> wire y = wire x ->
  answered Minimal x (emit (WriteHeader "Content-Type" "application/json")
                        (emit (WriteStatus "200 OK") (set_done y))).
Proof.
  intros B W. split; [assumption|]. split; [reflexivity|].
  exists [WriteStatus "200 OK"; WriteHeader "Content-Type" "application/json"].
  simpl. rewrite W, <- !app_assoc. repeat split; discriminate.
Qed.

Lemma send_answered (v : Variant) (body : Value) (x : Exchange) :
  quiet x (exec (send v body) x) \/ answered v x (exec (send v body) x).
Proof.
  unfold exec. destruct (blocked x) eqn:B.
  - left. rewrite send_blocked by assumption. apply quiet_refl.
  - destruct v; simpl.
    + rewrite send_fuller_clear by assumption.
      destruct (String.eqb (typeof body) "string" || String.eqb (typeof body) "number")%bool.
      * right. now apply replied_ok_answered.
      * destruct (JSON_stringify body); simpl.
        -- right. now apply json_answered.
        -- left. split; reflexivity.
    + rewrite send_minimal_clear by assumption.
      destruct (String.eqb (typeof body) "string").
      * right. now apply replied_ok_answered.
      * destruct (String.eqb (typeof body) "object").
        -- destruct (JSON_stringify body); simpl; right;
             [now apply json_answered | now apply headers_answered].
        -- left. split; reflexivity.
Qed.

Lemma settle_answered (v : Variant) (o : Outcome) (x : Exchange) :
  quiet x (exec (settle v o) x) \/ answered v x (exec (settle v o) x).
Proof.
  destruct (blocked x) eqn:B.
  - left. rewrite settle_blocked by assumption. apply quiet_refl.
  - destruct v; simpl.
    + rewrite settle_fuller_clear by assumption.
      destruct o as [b | e]; [|right; now apply replied_error_answered].
      destruct (calledSend x); [left; apply quiet_refl|].
      destruct (negb (truthy b)); [right; now apply replied_error_answered|].
      destruct (instanceofError b); [right; now apply replied_error_answered|].
      apply (send_answered Fuller).
    + rewrite settle_minimal_clear by assumption.
      destruct o as [b | e]; [|right; now apply replied_error_answered].
      destruct (calledSend x); [left; apply quiet_refl|].
      destruct (negb (truthy b)); [left; apply quiet_refl|].
      destruct (instanceofError b); [right; now apply replied_error_answered|].
      apply (send_answered Minimal).
Qed.

Lemma shapeInvariant_step (v : Variant) (x x' : Exchange) :
  shapeInvariant v x -> quiet x x' \/ answered v x x' -> shapeInvariant v x'.
Proof.
  intros (I0 & I1 & I2) [[W D] | (B & D & ops & W & N & Sh & E)].
  - unfold shapeInvariant. rewrite W, D. auto.
  - assert (wire x = []) as Z.
    { apply I0. unfold blocked in B.
      destruct (done x); [|reflexivity]. now rewrite orb_true_r in B. }
    unfold shapeInvariant. rewrite W, Z, D. simpl.
    repeat split; [discriminate | assumption | auto].
Qed.

Lemma shapeInvariant_events (v : Variant) (es : list Event) (x : Exchange) :
  shapeInvariant v x -> shapeInvariant v (fold_left (occur v) es x).
Proof.
  revert x. induction es as [|e es IH]; intros x I; simpl; [assumption|].
  apply IH. eapply shapeInvariant_step; [eassumption|].
  destruct e; simpl; [apply send_answered | left; split; reflexivity ..].
Qed.

Lemma shapeInvariant_dispatch (v : Variant) (h : HandlerRun) :
  shapeInvariant v (dispatch v h).
Proof.
  assert (shapeInvariant v fresh) as F.
  { repeat split. intros _ D. discriminate D. }
  unfold dispatch. apply shapeInvariant_events.
  destruct (outcome h) as [o|].
  - eapply shapeInvariant_step; [|apply settle_answered].
    now apply shapeInvariant_events.
  - now apply shapeInvariant_events.
Qed.

(** X11. Whatever the handler does, what reaches the transport is nothing
    at all, or one response of a fixed shape: a status line and a body,
    where the status is [200 OK] or the body repeats the status text (the
    error replies); or [200 OK], the header [Content-Type: application/json]
    and a body; only the minimal variant can leave the latter without its
    body. Nothing is on the wire unless the response is marked done, and in
    the fuller variant the response is marked done exactly when it has been
    ended. *)
Theorem responses_have_a_fixed_shape (v : Variant) (h : HandlerRun) :
  responseShape v (wire (dispatch v h)) = true /\
  (done (dispatch v h) = false -> wire (dispatch v h) = []) /\
  (done (dispatch Fuller h) = true <-> ends (wire (dispatch Fuller h)) = 1%nat).
Proof.
  destruct (shapeInvariant_dispatch v h) as (I0 & I1 & _).
  destruct (shapeInvariant_dispatch Fuller h) as (F0 & _ & F2).
  repeat split; auto.
  intros E. destruct (done (dispatch Fuller h)); [reflexivity|].
  rewrite F0 in E by reflexivity. discriminate E.
Qed.

(** *** Exceptions *)

Lemma onError_fuller_normal (error : Value) (x : Exchange) :
  fst (onError_fuller error x) = Normal tt.
Proof.
  destruct (blocked x) eqn:B;
    [now rewrite onError_fuller_blocked | now rewrite onError_fuller_clear].
Qed.

Lemma onError_minimal_normal (error : Value) (x : Exchange) :
  fst (onError_minimal error x) = Normal tt.
Proof.
  destruct (blocked x) eqn:B;
    [now rewrite onError_minimal_blocked | now rewrite onError_minimal_clear].
Qed.

Lemma send_fuller_normal (body : Value) (x : Exchange) :
  fst (send_fuller body x) = Normal tt.
Proof.
  destruct (blocked x) eqn:B; [now rewrite send_fuller_blocked|].
  rewrite send_fuller_clear by assumption.
  destruct (String.eqb (typeof body) "string" || String.eqb (typeof body) "number")%bool;
    [reflexivity|].
  destruct (JSON_stringify body); reflexivity.
Qed.

(** X12. No exception of the handler or of [JSON.stringify] escapes the
    route callback: whatever the handler returns or throws and whatever the
    state of the exchange, the [try]/[catch] of both variants completes
    normally; and [response.send] of the fuller variant lets no exception of
    [JSON.stringify] reach the handler. *)
Theorem route_callback_never_throws
        (v : Variant) (o : Outcome) (body : Value) (x : Exchange) :
  fst (settle v o x) = Normal tt /\
  fst (send Fuller body x) = Normal tt.
Proof.
  split; [|apply send_fuller_normal].
  destruct v; simpl;
    unfold settle_fuller, settle_minimal, tryCatch, bind, await, read, ret, throw;
    destruct o as [b | e]; simpl;
    try apply onError_fuller_normal; try apply onError_minimal_normal;
    (destruct (calledSend x); simpl; [reflexivity|]);
    destruct (truthy b); simpl;
    try reflexivity; try apply onError_fuller_normal;
    destruct (instanceofError b); simpl;
    try apply onError_fuller_normal; try apply onError_minimal_normal.
  - pose proof (send_fuller_normal b x) as N.
    destruct (send_fuller b x) as [[[] | e] x']; simpl in *;
      [reflexivity | discriminate N].
  - destruct (send_minimal b x) as [[[] | e] x']; simpl;
      [reflexivity | apply onError_minimal_normal].
Qed.

(** *** Structured values *)

(** X13. A value of type [object] that [JSON.stringify] serializes, passed
    to [response.send] with no guard flag set, is answered in both variants
    with [200 OK], the header [Content-Type: application/json] and the
    serialized text as body; so is such a value returned by the handler,
    when it is not an [Error] and [response.send] was not called. *)
Theorem json_reply (v : Variant) (x : Exchange) (b json : Value) :
  blocked x = false ->
  typeof b = "object" ->
  JSON_stringify b = Normal json ->
  let answer :=
    emit (End json)
      (emit (WriteHeader "Content-Type" "application/json")
         (emit (WriteStatus "200 OK") (set_done (set_calledSend x)))) in
  exec (send v b) x = answer /\
  (calledSend x = false -> truthy b = true -> instanceofError b = false ->
   exec (settle v (Returns b)) x = answer).
Proof.
  intros B T J answer. subst answer.
  assert (exec (send v b) x
          = emit (End json)
              (emit (WriteHeader "Content-Type" "application/json")
                 (emit (WriteStatus "200 OK") (set_done (set_calledSend x))))) as E.
  { unfold exec. destruct v; simpl;
      [rewrite send_fuller_clear | rewrite send_minimal_clear]; try assumption;
      rewrite T, J; reflexivity. }
  split; [exact E|].
  intros S Tr Er. destruct v; simpl in *;
    [rewrite settle_fuller_clear | rewrite settle_minimal_clear]; try assumption;
    rewrite S, Tr, Er; simpl; exact E.
Qed.

(** X14. A value of type [object] that [JSON.stringify] rejects (a cycle, a
    [BigInt] inside). The fuller variant writes nothing for it and does not
    mark the response done: [response.send] only records that it was
    called, and when the handler returns such a value no error reply
    follows either. The minimal variant marks the response done, writes the
    status line and the JSON header, and then throws: the response is left
    without a body, and when the handler returned the value its [catch]
    block adds nothing. *)
Theorem unserializable_value (x : Exchange) (b e : Value) :
  blocked x = false ->
  typeof b = "object" ->
  JSON_stringify b = Throw e ->
  let cut :=
    emit (WriteHeader "Content-Type" "application/json")
      (emit (WriteStatus "200 OK") (set_done (set_calledSend x))) in
  send Fuller b x = (Normal tt, set_calledSend x) /\
  send Minimal b x = (Throw e, cut) /\
  (calledSend x = false -> truthy b = true -> instanceofError b = false ->
   exec (settle Fuller (Returns b)) x = set_calledSend x /\
   exec (settle Minimal (Returns b)) x = cut).
Proof.
  intros B T J cut. subst cut. simpl.
  assert (send_fuller b x = (Normal tt, set_calledSend x)) as F.
  { rewrite send_fuller_clear by assumption. now rewrite T, J. }
  assert (send_minimal b x
          = (Throw e, emit (WriteHeader "Content-Type" "application/json")
                        (emit (WriteStatus "200 OK") (set_done (set_calledSend x))))) as M0.
  { rewrite send_minimal_clear by assumption. now rewrite T, J. }
  split; [exact F|]. split; [exact M0|].
  intros S Tr Er.
  rewrite settle_fuller_clear, settle_minimal_clear by assumption.
  rewrite S, Tr, Er. simpl. unfold exec. now rewrite F, M0.
Qed.

(** X15. The two variants agree on what they can both write: for a string,
    and for a value of type [object] that [JSON.stringify] serializes,
    [response.send] does the same in both, on every exchange; and so does
    the settling of a handler that returns such a value, when the value is
    truthy and not an [Error]. *)
Theorem variants_agree_on_strings_and_json (x : Exchange) (b : Value) :
  (String.eqb (typeof b) "string" || (String.eqb (typeof b) "object" && isJSON b))%bool = true ->
  send Fuller b x = send Minimal b x /\
  (truthy b = true -> instanceofError b = false ->
   exec (settle Fuller (Returns b)) x = exec (settle Minimal (Returns b)) x).
Proof.
  intros H.
  assert (send_fuller b x = send_minimal b x) as E.
  { destruct (blocked x) eqn:B.
    - now rewrite send_fuller_blocked, send_minimal_blocked.
    - rewrite send_fuller_clear, send_minimal_clear by assumption.
      unfold isJSON in H.
      destruct (String.eqb_spec (typeof b) "string") as [-> | _]; [reflexivity|].
      destruct (String.eqb_spec (typeof b) "object") as [-> | _]; [|discriminate H].
      simpl in *. destruct (JSON_stringify b); [reflexivity | discriminate H]. }
  split; [exact E|].
  intros T Er. destruct (blocked x) eqn:B.
  - now rewrite (settle_blocked Fuller), (settle_blocked Minimal).
  - simpl. rewrite settle_fuller_clear, settle_minimal_clear by assumption.
    rewrite T, Er. simpl. unfold exec. now rewrite E.
Qed.

(** *** Numeric statuses *)

Lemma readDigits_acc (d : Decimal.uint) (acc : positive) :
  readDigits (NilEmpty.string_of_uint d) (Some (Zpos acc))
  = Some (Zpos (Pos.of_uint_acc d acc)).
Proof.
  revert acc.
  induction d; intros acc; cbn [NilEmpty.string_of_uint Pos.of_uint_acc readDigits];
    [reflexivity | ..];
    match goal with
    | |- context [digitOf ?c] =>
        let r := eval vm_compute in (digitOf c) in change (digitOf c) with r
    end; cbv iota; rewrite <- IHd; do 2 f_equal; lia.
Qed.

Lemma readDigits_zero (d : Decimal.uint) :
  readDigits (NilEmpty.string_of_uint d) (Some 0) = Some (Z.of_N (Pos.of_uint d)).
Proof.
  induction d; cbn [NilEmpty.string_of_uint Pos.of_uint readDigits];
    [reflexivity | ..];
    match goal with
    | |- context [digitOf ?c] =>
        let r := eval vm_compute in (digitOf c) in change (digitOf c) with r
    end; cbv iota; try exact IHd;
    match goal with
    | |- readDigits _ (Some ?a) = _ =>
        let r := eval vm_compute in a in change a with r
    end; rewrite readDigits_acc; reflexivity.
Qed.

Lemma parseIntString_uint (d : Decimal.uint) :
  d <> Decimal.Nil ->
  parseIntString (NilEmpty.string_of_uint d) = Int (Z.of_N (Pos.of_uint d)) /\
  parseIntString (String "-" (NilEmpty.string_of_uint d)) = Int (- Z.of_N (Pos.of_uint d)).
Proof.
  intros N.
  assert (readDigits (NilEmpty.string_of_uint d) None = Some (Z.of_N (Pos.of_uint d))) as R.
  { rewrite <- readDigits_zero. destruct d; [contradiction | reflexivity ..]. }
  split.
  - destruct d; [contradiction | ..]; unfold parseIntString;
      cbn [NilEmpty.string_of_uint skipWhite] in *;
      match goal with
      | |- context [isWhite ?c] =>
          let r := eval vm_compute in (isWhite c) in change (isWhite c) with r
      end; cbv iota; cbv beta iota zeta; rewrite R; first [reflexivity | f_equal; lia].
  - unfold parseIntString. cbn [skipWhite].
    change (isWhite "-") with false. cbv beta iota zeta. rewrite R.
    first [reflexivity | f_equal; lia].
Qed.

(** Printing an integer and parsing it back gives the integer. *)
Lemma parseIntString_of_toString (z : Z) :
  parseIntString (Number_toString (Int z)) = Int z.
Proof.
  unfold Number_toString. destruct z as [|p|p]; [reflexivity | |];
    unfold Z.to_int, NilZero.string_of_int, NilZero.string_of_uint;
    pose proof (Unsigned.to_uint_nonnil p) as N;
    destruct (parseIntString_uint (Pos.to_uint p) N) as [A B];
    destruct (Pos.to_uint p) eqn:E; try contradiction;
    rewrite <- E in *;
    first [rewrite A | rewrite B]; rewrite Unsigned.of_to; reflexivity.
Qed.

(** X16. An [Error] whose [status] is a safe integer (below 2^53 in
    absolute value, the integers a number holds exactly and prints digit for
    digit) and which has a message, thrown with no guard flag set, is
    answered in both variants with that very integer: the text is the status
    in decimal, a space and the message, and, for an empty message,
    [500 Internal Server Error] when the status is 500 and the bare status
    otherwise. Negative or zero, [parseInt] gives the integer back. *)
Theorem numeric_status_is_kept (v : Variant) (x : Exchange) (n : Z) (m : string) :
  blocked x = false ->
  safeInteger n = true ->
  let text :=
    if String.eqb m EmptyString then
      if Z.eqb n 500 then "500 Internal Server Error" else Number_toString (Int n)
    else Number_toString (Int n) ++ " " ++ m in
  exec (settle v (Throws (customError n m))) x = replied text (Str text) x.
Proof.
  intros B Safe text.
  assert (errorText v (customError n m) = text) as E.
  { subst text. rewrite errorText_spec by reflexivity.
    assert (specStatus (readsCode v) (customError n m) = Int n) as S.
    { unfold specStatus.
      change (optGet (customError n m) "status") with (Num (Int n)).
      unfold parseInt. change (ToString (Num (Int n))) with (Number_toString (Int n)).
      apply parseIntString_of_toString. }
    unfold specErrorText. rewrite S. unfold specReason.
    change (optGet (customError n m) "reason") with Undefined.
    change (optGet (customError n m) "message") with (Str m).
    change (truthy Undefined) with false. cbv iota.
    destruct (String.eqb_spec m EmptyString) as [-> | N].
    - change (truthy (Str EmptyString)) with false. cbv iota.
      change (Number_eqb (Int n) (Int 500)) with (Z.eqb n 500).
      destruct (Z.eqb_spec n 500) as [-> | _]; reflexivity.
    - rewrite (truthy_Str m N). cbv iota. rewrite (truthy_Str m N). reflexivity. }
  destruct v; simpl;
    [rewrite settle_fuller_clear | rewrite settle_minimal_clear]; try assumption;
    now rewrite E.
Qed.

End MoreProperties.

(* =================================================================== *)
(** ** The application object *)
(* =================================================================== *)

(** X18. The host of a new instance is never [localhost]: that name is
    replaced by [127.0.0.1], any other given host is kept, and without one
    the host is [0.0.0.0]; a new instance has no route. *)
Theorem new_app_host (options : Options) :
  host (newApp options) <> "localhost" /\
  host (newApp options)
  = match optHost options with
    | None => "0.0.0.0"
    | Some h => if String.eqb h "localhost" then "127.0.0.1" else h
    end /\
  routes (newApp options) = [].
Proof.
  split; [|split; reflexivity].
  unfold newApp. simpl. destruct (optHost options) as [h|]; [|discriminate].
  destruct (String.eqb_spec h "localhost") as [-> | N]; [discriminate | exact N].
Qed.

Section ListeningProperties.

Variable us_socket_local_port : option Socket -> Z.

Lemma perform_call_frame (l : Listener) (c : Call) :
  host (instance (perform_call us_socket_local_port l c)) = host (instance l) /\
  routes (instance (perform_call us_socket_local_port l c)) = routes (instance l) /\
  (port (instance l) <> 0 ->
   port (instance (perform_call us_socket_local_port l c)) = port (instance l)).
Proof.
  destruct c as [|bound|]; simpl.
  - auto.
  - repeat split. intros N. destruct (Z.eqb_spec (port (instance l)) 0); [contradiction|].
    reflexivity.
  - unfold close. destruct (socket l); auto.
Qed.

(** X19. A port configured as non-zero is never changed: whatever calls of
    [listen] and [close] are made and whatever the transport answers, the
    [port] accessor keeps returning it; the host and the routes are never
    changed either. *)
Theorem configured_port_is_kept (l : Listener) (cs : list Call) :
  port (instance l) <> 0 ->
  port (instance (fold_left (perform_call us_socket_local_port) cs l)) = port (instance l) /\
  host (instance (fold_left (perform_call us_socket_local_port) cs l)) = host (instance l) /\
  routes (instance (fold_left (perform_call us_socket_local_port) cs l)) = routes (instance l).
Proof.
  revert l. induction cs as [|c cs IH]; intros l N; cbn [fold_left]; [auto|].
  destruct (perform_call_frame l c) as (H & R & Po).
  specialize (Po N).
  destruct (IH (perform_call us_socket_local_port l c)) as (A & B & C);
    [congruence|].
  repeat split; congruence.
Qed.

(** X20. With port 0 the instance takes the port of the socket when the
    transport answers the listen request, and [done] is given the host and
    that port; a failed answer leaves [close] with nothing to close. *)
Theorem ephemeral_port_is_resolved (l : Listener) (bound : option Socket) :
  port (instance l) = 0 ->
  let result := listening us_socket_local_port bound (listen l) in
  port (instance (fst result)) = us_socket_local_port bound /\
  snd result = (host (instance l), us_socket_local_port bound) /\
  calls (fst result) = (calls l ++ [Listen (host (instance l)) 0])%list /\
  (bound = None -> close (fst result) = fst result).
Proof.
  intros Z0 result. subst result. unfold listening, listen. simpl.
  rewrite Z0. simpl. repeat split. intros ->. reflexivity.
Qed.

Lemma closes_come_from_answers (cs : list Call) (l : Listener) (s : Socket) :
  In (CloseSocket s) (calls (fold_left (perform_call us_socket_local_port) cs l)) ->
  In (CloseSocket s) (calls l) \/ socket l = Some s \/ In (Answer (Some s)) cs.
Proof.
  revert l. induction cs as [|c cs IH]; intros l I; cbn [fold_left] in I; [auto|].
  destruct (IH _ I) as [C | [S | A]].
  - destruct c as [|bound|]; simpl in C.
    + apply in_app_or in C. destruct C as [C | [C | []]]; [auto | discriminate C].
    + auto.
    + unfold close in C. destruct (socket l) as [s'|] eqn:So; [|auto].
      simpl in C. apply in_app_or in C.
      destruct C as [C | [C | []]]; [auto|]. injection C as E. subst. auto.
  - destruct c as [|bound|]; simpl in S.
    + auto.
    + right. right. left. now rewrite S.
    + unfold close in S. destruct (socket l) eqn:So; simpl in S; rewrite ?So in S; auto.
  - right. right. now right.
Qed.

(** X21. [close] only ever closes a socket the transport handed over in
    answer to a listen request: on a new instance, whatever the sequence of
    calls, every close request the transport sees names such a socket; in
    particular nothing is closed when no listen succeeded. *)
Theorem close_only_closes_a_bound_socket
        (options : Options) (cs : list Call) (s : Socket) :
  In (CloseSocket s)
     (calls (fold_left (perform_call us_socket_local_port) cs (newListener options))) ->
  In (Answer (Some s)) cs.
Proof.
  intros I. destruct (closes_come_from_answers cs _ s I) as [[] | [S | A]];
    [discriminate S | exact A].
Qed.

End ListeningProperties.

(* =================================================================== *)
(** ** The further properties on concrete inputs *)
(* =================================================================== *)

Lemma body_pending_until_last_chunk_witness :
  Forall notLast [(bytes "{", false); (bytes "}", false)] /\
  body (P := RefPlatform) (Some applicationJson) [(bytes "{", false); (bytes "}", false)]
  = Pending.
Proof.
  assert (Forall notLast [(bytes "{", false); (bytes "}", false)]) as F
      by (repeat constructor).
  exact (conj F (body_pending_until_last_chunk (P := RefPlatform) (Some applicationJson)
                   [(bytes "{", false); (bytes "}", false)] F)).
Defined.

Lemma body_decodes_all_bytes_in_order_witness :
  Forall notLast [(bytes "{", false); (bytes (dquote ++ "a" ++ dquote), false)] /\
  body (P := RefPlatform) (Some applicationJson)
       ([(bytes "{", false); (bytes (dquote ++ "a" ++ dquote), false)]
          ++ [(bytes ":1}", true)])%list
  = Fulfilled (Obj Plain [("a", Num (Int 1))]).
Proof.
  assert (Forall notLast [(bytes "{", false); (bytes (dquote ++ "a" ++ dquote), false)]) as F
      by (repeat constructor).
  exact (conj F (body_decodes_all_bytes_in_order (P := RefPlatform) (Some applicationJson)
                   [(bytes "{", false); (bytes (dquote ++ "a" ++ dquote), false)]
                   (bytes ":1}") F)).
Defined.

Lemma body_settles_once_witness :
  Forall notLast [(bytes "he", false)] /\
  body (P := RefPlatform) (Some {| type := "text"; subtype := "plain" |})
       ([(bytes "he", false)] ++ (bytes "llo", true) :: [(bytes "!", true)])%list
  = body (P := RefPlatform) (Some {| type := "text"; subtype := "plain" |})
         ([(bytes "he", false)] ++ [(bytes "llo", true)])%list.
Proof.
  assert (Forall notLast [(bytes "he", false)]) as F by (repeat constructor).
  exact (conj F (body_settles_once (P := RefPlatform)
                   (Some {| type := "text"; subtype := "plain" |})
                   [(bytes "he", false)] [(bytes "!", true)] (bytes "llo") F)).
Defined.

Lemma headers_last_write_wins_witness :
  inheritedName "accept" = false /\
  optGet (headers (request (P := RefPlatform)
                     {| rawHeaders := [("accept", "text/html"); ("host", "localhost");
                                       ("__proto__", "x"); ("accept", "*/*")];
                        rawQuery := EmptyString; rawUrl := "/" |})) "accept"
  = Str "*/*".
Proof.
  assert (inheritedName "accept" = false) as I by reflexivity.
  exact (conj I (headers_last_write_wins (P := RefPlatform)
                   {| rawHeaders := [("accept", "text/html"); ("host", "localhost");
                                     ("__proto__", "x"); ("accept", "*/*")];
                      rawQuery := EmptyString; rawUrl := "/" |} "accept" I)).
Defined.

Lemma body_without_content_type_is_rejected_witness :
  lastValue "content-type" (rawHeaders plainRequest) = None /\
  simpleContentTypeParser Undefined = None /\
  Forall notLast [(bytes "x", false)] /\
  requestBody (P := RefPlatform) simpleContentTypeParser plainRequest
              ([(bytes "x", false)] ++ [(bytes "y", true)])%list
  = Rejected (invalidContentType "null").
Proof.
  assert (lastValue "content-type" (rawHeaders plainRequest) = None) as L by reflexivity.
  assert (simpleContentTypeParser Undefined = None) as N by reflexivity.
  assert (Forall notLast [(bytes "x", false)]) as F by (repeat constructor).
  exact (conj L (conj N (conj F
           (body_without_content_type_is_rejected (P := RefPlatform)
              simpleContentTypeParser plainRequest [(bytes "x", false)] (bytes "y") L N F)))).
Defined.

Lemma blocked_exchange_stays_silent_witness :
  blocked (set_aborted fresh) = true /\
  wire (resume (P := RefPlatform) Fuller (set_aborted fresh)
          (sending (Str "Hello World!"))) = [] /\
  done (resume (P := RefPlatform) Fuller (set_aborted fresh)
          (sending (Str "Hello World!"))) = false /\
  calledSend (resume (P := RefPlatform) Fuller (set_aborted fresh)
                (sending (Str "Hello World!"))) = false.
Proof.
  assert (blocked (set_aborted fresh) = true) as B by reflexivity.
  exact (conj B (blocked_exchange_stays_silent (P := RefPlatform) Fuller
                   (set_aborted fresh) (sending (Str "Hello World!")) B)).
Defined.

Lemma json_reply_witness :
  blocked fresh = false /\
  typeof (Obj Plain [("a", Num (Int 1))]) = "object" /\
  JSON_stringify (Platform := RefPlatform) (Obj Plain [("a", Num (Int 1))])
  = Normal (Str sampleJson) /\
  wire (exec (send (P := RefPlatform) Minimal (Obj Plain [("a", Num (Int 1))])) fresh)
  = [WriteStatus "200 OK"; WriteHeader "Content-Type" "application/json";
     End (Str sampleJson)] /\
  wire (exec (settle (P := RefPlatform) Fuller (Returns (Obj Plain [("a", Num (Int 1))])))
          fresh)
  = [WriteStatus "200 OK"; WriteHeader "Content-Type" "application/json";
     End (Str sampleJson)].
Proof.
  assert (blocked fresh = false) as B by reflexivity.
  assert (typeof (Obj Plain [("a", Num (Int 1))]) = "object") as T by reflexivity.
  assert (JSON_stringify (Platform := RefPlatform) (Obj Plain [("a", Num (Int 1))])
          = Normal (Str sampleJson)) as J by reflexivity.
  exact (conj B (conj T (conj J (conj
           (f_equal wire
              (proj1 (json_reply (P := RefPlatform) Minimal fresh
                        (Obj Plain [("a", Num (Int 1))]) (Str sampleJson) B T J)))
           (f_equal wire
              (proj2 (json_reply (P := RefPlatform) Fuller fresh
                        (Obj Plain [("a", Num (Int 1))]) (Str sampleJson) B T J)
                     eq_refl eq_refl eq_refl)))))).
Defined.

Lemma unserializable_value_witness :
  blocked fresh = false /\
  typeof (Arr [BigInt 1]) = "object" /\
  JSON_stringify (Platform := RefPlatform) (Arr [BigInt 1]) = Throw Ref.typeError /\
  wire (exec (settle (P := RefPlatform) Fuller (Returns (Arr [BigInt 1]))) fresh) = [] /\
  done (exec (settle (P := RefPlatform) Fuller (Returns (Arr [BigInt 1]))) fresh) = false /\
  wire (exec (settle (P := RefPlatform) Minimal (Returns (Arr [BigInt 1]))) fresh)
  = [WriteStatus "200 OK"; WriteHeader "Content-Type" "application/json"].
Proof.
  assert (blocked fresh = false) as B by reflexivity.
  assert (typeof (Arr [BigInt 1]) = "object") as T by reflexivity.
  assert (JSON_stringify (Platform := RefPlatform) (Arr [BigInt 1]) = Throw Ref.typeError)
    as J by reflexivity.
  pose proof (proj2 (proj2 (unserializable_value (P := RefPlatform) fresh (Arr [BigInt 1])
                              Ref.typeError B T J)) eq_refl eq_refl eq_refl) as [F M0].
  exact (conj B (conj T (conj J (conj (f_equal wire F)
           (conj (f_equal done F) (f_equal wire M0)))))).
Defined.

Lemma variants_agree_on_strings_and_json_witness :
  (String.eqb (typeof (Str "hi")) "string" ||
   (String.eqb (typeof (Str "hi")) "object" && isJSON (P := RefPlatform) (Str "hi")))%bool
  = true /\
  send (P := RefPlatform) Fuller (Str "hi") fresh
  = send (P := RefPlatform) Minimal (Str "hi") fresh /\
  exec (settle (P := RefPlatform) Fuller (Returns (Str "hi"))) fresh
  = exec (settle (P := RefPlatform) Minimal (Returns (Str "hi"))) fresh.
Proof.
  assert ((String.eqb (typeof (Str "hi")) "string" ||
           (String.eqb (typeof (Str "hi")) "object" &&
            isJSON (P := RefPlatform) (Str "hi")))%bool = true) as H by reflexivity.
  pose proof (variants_agree_on_strings_and_json (P := RefPlatform) fresh (Str "hi") H)
    as [S1 S2].
  exact (conj H (conj S1 (S2 eq_refl eq_refl))).
Defined.

Lemma numeric_status_is_kept_witness :
  blocked fresh = false /\
  safeInteger 401 = true /\
  wire (exec (settle (P := RefPlatform) Minimal (Throws (customError 401 "TEST_ERROR"))) fresh)
  = [WriteStatus "401 TEST_ERROR"; End (Str "401 TEST_ERROR")].
Proof.
  assert (blocked fresh = false) as B by reflexivity.
  assert (safeInteger 401 = true) as S by reflexivity.
  exact (conj B (conj S (f_equal wire
                   (numeric_status_is_kept (P := RefPlatform) Minimal fresh 401
                      "TEST_ERROR" B S)))).
Defined.

Lemma configured_port_is_kept_witness :
  port (instance (newListener {| optHost := Some "localhost"; optPort := Some 3000 |})) <> 0 /\
  port (instance (fold_left (perform_call samplePort) sampleCalls
                    (newListener {| optHost := Some "localhost"; optPort := Some 3000 |})))
  = 3000.
Proof.
  assert (port (instance (newListener {| optHost := Some "localhost";
                                         optPort := Some 3000 |})) <> 0) as N
      by discriminate.
  exact (conj N (proj1 (configured_port_is_kept samplePort
                          (newListener {| optHost := Some "localhost";
                                          optPort := Some 3000 |})
                          sampleCalls N))).
Defined.

Lemma ephemeral_port_is_resolved_witness :
  port (instance (newListener {| optHost := None; optPort := None |})) = 0 /\
  port (instance (fst (listening samplePort (Some 7%nat)
                         (listen (newListener {| optHost := None; optPort := None |})))))
  = 9007 /\
  snd (listening samplePort (Some 7%nat)
         (listen (newListener {| optHost := None; optPort := None |})))
  = ("0.0.0.0", 9007).
Proof.
  assert (port (instance (newListener {| optHost := None; optPort := None |})) = 0) as Z0
      by reflexivity.
  pose proof (ephemeral_port_is_resolved samplePort
                (newListener {| optHost := None; optPort := None |}) (Some 7%nat) Z0)
    as (A & B & _).
  exact (conj Z0 (conj A B)).
Defined.

Lemma close_only_closes_a_bound_socket_witness :
  In (CloseSocket 7%nat)
     (calls (fold_left (perform_call samplePort) sampleCalls
               (newListener {| optHost := None; optPort := None |}))) /\
  In (Answer (Some 7%nat)) sampleCalls.
Proof.
  assert (In (CloseSocket 7%nat)
             (calls (fold_left (perform_call samplePort) sampleCalls
                       (newListener {| optHost := None; optPort := None |})))) as I
      by (simpl; auto).
  exact (conj I (close_only_closes_a_bound_socket samplePort
                   {| optHost := None; optPort := None |} sampleCalls 7%nat I)).
Defined.

(* =================================================================== *)
(** ** The response guard, per callback and per request *)
(* =================================================================== *)

Section Guard.

Context {P : Platform}.

Lemma send_keeps_routing (v : Variant) (body : Value) (x : Exchange) :
  calledNext (exec (send v body) x) = calledNext x /\
  yield (exec (send v body) x) = yield x.
Proof.
  unfold exec. destruct (blocked x) eqn:B.
  - rewrite send_blocked by assumption. split; reflexivity.
  - destruct v; simpl.
    + rewrite send_fuller_clear by assumption.
      destruct (String.eqb (typeof body) "string" || String.eqb (typeof body) "number")%bool;
        [split; reflexivity|].
      destruct (JSON_stringify body); split; reflexivity.
    + rewrite send_minimal_clear by assumption.
      destruct (String.eqb (typeof body) "string"); [split; reflexivity|].
      destruct (String.eqb (typeof body) "object"); [|split; reflexivity].
      destruct (JSON_stringify body); split; reflexivity.
Qed.

Lemma settle_keeps_routing (v : Variant) (o : Outcome) (x : Exchange) :
  calledNext (exec (settle v o) x) = calledNext x /\
  yield (exec (settle v o) x) = yield x.
Proof.
  destruct (blocked x) eqn:B.
  - rewrite settle_blocked by assumption. split; reflexivity.
  - destruct v; simpl.
    + rewrite settle_fuller_clear by assumption.
      destruct o as [b | e]; [|split; reflexivity].
      destruct (calledSend x); [split; reflexivity|].
      destruct (negb (truthy b)); [split; reflexivity|].
      destruct (instanceofError b); [split; reflexivity|].
      apply (send_keeps_routing Fuller).
    + rewrite settle_minimal_clear by assumption.
      destruct o as [b | e]; [|split; reflexivity].
      destruct (calledSend x); [split; reflexivity|].
      destruct (negb (truthy b)); [split; reflexivity|].
      destruct (instanceofError b); [split; reflexivity|].
      apply (send_keeps_routing Minimal).
Qed.

Lemma blocked_calledNext (x : Exchange) : calledNext x = true -> blocked x = true.
Proof. intros C. unfold blocked. rewrite C. now rewrite orb_true_r. Qed.

Lemma routing_occur (v : Variant) (e : Event) (x : Exchange) :
  routingInvariant x ->
  match e with CallNext => negb (done x) | _ => true end = true ->
  routingInvariant (occur v x e).
Proof.
  intros [G R] N. split.
  - eapply guardInvariant_step; [exact G | apply occur_effect].
  - destruct e as [b| |]; simpl.
    + destruct R as [[C Y] | [C D]].
      * destruct (send_keeps_routing v b x) as [C' Y']. left. split; congruence.
      * unfold exec. rewrite send_blocked by now apply blocked_calledNext. auto.
    + right. split; [reflexivity|]. change (done x = false).
      revert N. destruct (done x); simpl; congruence.
    + exact R.
Qed.

Lemma routing_events (v : Variant) (es : list Event) (x : Exchange) :
  routingInvariant x -> nextOnlyBeforeDone v es x = true ->
  routingInvariant (fold_left (occur v) es x).
Proof.
  revert x. induction es as [|e es IH]; intros x R N; [exact R|].
  cbn [fold_left nextOnlyBeforeDone] in *.
  apply andb_true_iff in N. destruct N as [N1 N2].
  apply IH; [now apply routing_occur | exact N2].
Qed.

Lemma routing_settle (v : Variant) (o : Outcome) (x : Exchange) :
  routingInvariant x -> routingInvariant (exec (settle v o) x).
Proof.
  intros [G R]. split.
  - eapply guardInvariant_step; [exact G | apply settle_effect].
  - destruct R as [[C Y] | [C D]].
    + destruct (settle_keeps_routing v o x) as [C' Y']. left. split; congruence.
    + rewrite settle_blocked by now apply blocked_calledNext. auto.
Qed.

Lemma routing_fresh : routingInvariant fresh.
Proof. split; [apply guardInvariant_fresh | left; split; reflexivity]. Qed.

(** A polite callback that yields the request has written nothing. *)
Lemma polite_yield_silent (v : Variant) (h : HandlerRun) :
  polite v h = true -> yield (dispatch v h) = true -> wire (dispatch v h) = [].
Proof.
  unfold polite, dispatch. intros Po Y.
  apply andb_true_iff in Po. destruct Po as [P1 P2].
  set (x1 := fold_left (occur v) (before h) fresh) in *.
  assert (routingInvariant x1) as R1 by (apply routing_events; [apply routing_fresh | exact P1]).
  set (x2 := match outcome h with Some o => exec (settle v o) x1 | None => x1 end) in *.
  assert (routingInvariant x2) as R2.
  { subst x2. destruct (outcome h); [now apply routing_settle | exact R1]. }
  destruct (routing_events v (after h) x2 R2 P2) as [(G0 & _) [[_ Y'] | [_ D]]].
  - congruence.
  - now apply G0.
Qed.

Lemma serve_polite (v : Variant) (hs : list HandlerRun) :
  forallb (polite v) hs = true ->
  (ends (serve v hs []) <= 1)%nat /\ (statuses (serve v hs []) <= 1)%nat.
Proof.
  induction hs as [|h hs IH]; intros F.
  - split; [unfold ends | unfold statuses]; simpl; lia.
  - cbn [forallb] in F. apply andb_true_iff in F. destruct F as [Po F].
    cbn [serve]. change (resume v (freshOn []) h) with (dispatch v h).
    destruct (yield (dispatch v h)) eqn:Y.
    + rewrite (polite_yield_silent v h Po Y). now apply IH.
    + destruct (guardInvariant_dispatch v h) as (_ & E & S). now split.
Qed.

(** C1, amended. The response guard works per route callback: each handler
    invocation runs on flags of its own. Whatever a handler does (any calls
    to [response.send] and [next], aborts at any moment, before and after
    its promise settles, in either variant), its callback gives the
    transport at most one end of response and at most one status line; each
    of the three writes (automatic send, explicit send, error reply) starts
    with a status line, so at most one of them executes. On an exchange that
    is aborted, done or handed on with [next()], neither [response.send] nor
    the settling of the handler's promise (automatic send and error path)
    changes anything; and each of them either writes nothing, or runs with
    no such flag set and leaves the response done. For a request that goes
    through several registrations, the same bounds hold for the request as a
    whole provided no handler calls [next()] once its response is marked
    done. *)
Theorem response_guard_single_write
        (v : Variant) (h : HandlerRun) (hs : list HandlerRun)
        (x : Exchange) (body : Value) (o : Outcome) :
  (ends (wire (dispatch v h)) <= 1)%nat /\
  (statuses (wire (dispatch v h)) <= 1)%nat /\
  (blocked x = true ->
   exec (send v body) x = x /\ exec (settle v o) x = x) /\
  (quiet x (exec (send v body) x) \/ wrote x (exec (send v body) x)) /\
  (quiet x (exec (settle v o) x) \/ wrote x (exec (settle v o) x)) /\
  (forallb (polite v) hs = true ->
   (ends (serve v hs []) <= 1)%nat /\ (statuses (serve v hs []) <= 1)%nat).
Proof.
  destruct (guardInvariant_dispatch v h) as (_ & E & S).
  split; [exact E|]. split; [exact S|]. split; [|split; [|split]].
  - intros B. split.
    + unfold exec. now rewrite send_blocked.
    + now apply settle_blocked.
  - apply send_effect.
  - apply settle_effect.
  - apply serve_polite.
Qed.

End Guard.

(** [test/http.ts], using next(): the first registration yields, the second
    one answers. *)
Example test_using_next_then_answer :
  serve (P := RefPlatform) Fuller [onlyNext; settling (Returns (Str "Hello World!"))] []
  = [WriteStatus "200 OK"; End (Str "Hello World!")].
Proof. reflexivity. Qed.

(** C1, as stated for every request, fails: a handler that sends a string
    and then calls [next()] has answered, yet the request goes on to the
    next registration, which runs on fresh flags and answers again. The
    request gets two status lines and two ends, in both variants. *)
Lemma send_then_next_writes_twice :
  polite (P := RefPlatform) Fuller sendThenNext = false /\
  serve (P := RefPlatform) Fuller [sendThenNext; returnsB] []
  = [WriteStatus "200 OK"; End (Str "a"); WriteStatus "200 OK"; End (Str "b")] /\
  ends (serve (P := RefPlatform) Fuller [sendThenNext; returnsB] []) = 2%nat /\
  ends (serve (P := RefPlatform) Minimal [sendThenNext; returnsB] []) = 2%nat /\
  ~ (ends (serve (P := RefPlatform) Fuller [sendThenNext; returnsB] []) <= 1)%nat.
Proof.
  repeat split. intros H. vm_compute in H. lia.
Qed.

Lemma response_guard_single_write_witness :
  blocked (set_aborted fresh) = true /\
  forallb (polite (P := RefPlatform) Fuller) [onlyNext; returnsB] = true /\
  exec (send (P := RefPlatform) Fuller (Str "late")) (set_aborted fresh) = set_aborted fresh /\
  exec (settle (P := RefPlatform) Fuller (Throws (newError None))) (set_aborted fresh)
  = set_aborted fresh /\
  (ends (serve (P := RefPlatform) Fuller [onlyNext; returnsB] []) <= 1)%nat /\
  (statuses (serve (P := RefPlatform) Fuller [onlyNext; returnsB] []) <= 1)%nat.
Proof.
  assert (blocked (set_aborted fresh) = true) as B by reflexivity.
  assert (forallb (polite (P := RefPlatform) Fuller) [onlyNext; returnsB] = true) as F
      by reflexivity.
  pose proof (response_guard_single_write (P := RefPlatform) Fuller
                (sending (Str "Hello World!")) [onlyNext; returnsB] (set_aborted fresh)
                (Str "late") (Throws (newError None))) as (_ & _ & G & _ & _ & R).
  destruct (G B) as [G1 G2]. destruct (R F) as [R1 R2].
  exact (conj B (conj F (conj G1 (conj G2 (conj R1 R2))))).
Defined.
